(** * Eigen/src/Core/MatrixStorage.h: the storage classes of a matrix

    A shallow embedding of [ei_matrix_array] and of the eight
    [ei_matrix_storage] class templates, followed by the properties of
    their construction, [resize], [swap], [data] and destruction. *)

From Stdlib Require Import ZArith Lia.
From stdpp Require Import base option list gmap.

Local Open Scope Z_scope.

(** ** Machine integers

    The dimensions are C++ [int]s.  A product of two of them is taken in
    32-bit two's complement, as the compilers the library targets do. *)

Definition int_wrap (z : Z) : Z := (z + 2 ^ 31) mod 2 ^ 32 - 2 ^ 31.

Definition int_mul (a b : Z) : Z := int_wrap (a * b).

(** [std::swap] on two values of one type. *)
Definition std_swap {A : Type} (a b : A) : A * A := (b, a).

(** The tag type of the constructors that leave the alignment check out. *)
Inductive ei_constructor_without_unaligned_array_assert : Type :=
| without_unaligned_array_assert.

(** ** The allocation collaborator

    [ei_conditional_aligned_new] and [ei_conditional_aligned_delete] are
    called by the heap-backed classes and defined elsewhere.  Every call is
    recorded, with its [Align] template argument and its arguments as the
    storage class passes them, in a trace in call order. *)

Inductive event : Type :=
| EvNew (Align : bool) (size : Z) (result : Z)
| EvDelete (Align : bool) (ptr : Z) (size : Z).

Definition trace : Type := list event.

(** The [Align] argument of a collaborator call. *)
Definition event_align (e : event) : bool :=
  match e with
  | EvNew al _ _ => al
  | EvDelete al _ _ => al
  end.

(** What an allocation gives back, from the calls made so far: the address
    of the new buffer, or [None] when the allocation fails. *)
Definition allocator : Type := trace -> bool -> Z -> option Z.

(** Code that calls the collaborator: it reads and extends the trace, and
    an allocation failure ends it. *)
Definition M (A : Type) : Type := trace -> option (A * trace).

Definition ret {A : Type} (a : A) : M A := fun tr => Some (a, tr).

Definition bind {A B : Type} (c : M A) (k : A -> M B) : M B :=
  fun tr => match c tr with
            | Some (a, tr') => k a tr'
            | None => None
            end.

Notation "x <~ c ;; k" := (bind c (fun x => k))
  (at level 20, c at level 99, k at level 200, only parsing).

(** Modelled from the spec: [ei_conditional_aligned_new<T,Align>(size)], the
    allocate primitive of the collaborator, parameterized by whether
    alignment is requested; its failure is fatal and propagated. *)
Definition ei_conditional_aligned_new (alloc : allocator) (Align : bool) (size : Z) : M Z :=
  fun tr => match alloc tr Align size with
            | Some p => Some (p, tr ++ [EvNew Align size p])
            | None => None
            end.

(** Modelled from the spec: [ei_conditional_aligned_delete<T,Align>(ptr, size)],
    the deallocate primitive of the collaborator, given the buffer and the
    element count being freed. *)
Definition ei_conditional_aligned_delete (Align : bool) (ptr size : Z) : M unit :=
  fun tr => Some (tt, tr ++ [EvDelete Align ptr size]).

(** The buffers that are allocated and not yet released after a trace, each
    with the element count it was allocated with. *)
Definition apply_event (live : gmap Z Z) (e : event) : gmap Z Z :=
  match e with
  | EvNew _ size p => <[p := size]> live
  | EvDelete _ p _ => delete p live
  end.

Definition blocks (tr : trace) : gmap Z Z := foldl apply_event ∅ tr.

(** ** Build configuration

    [EIGEN_DISABLE_UNALIGNED_ARRAY_ASSERT] empties the alignment assertion;
    [EIGEN_NO_DEBUG] is a build without assertions. *)
Record build : Type := {
  EIGEN_DISABLE_UNALIGNED_ARRAY_ASSERT : bool;
  EIGEN_NO_DEBUG : bool
}.

(** Modelled from the spec: [ei_assert], which in a debug build fails
    fatally ([None]) when its condition is false and is absent otherwise. *)
Definition ei_assert (cfg : build) (c : bool) : option unit :=
  if EIGEN_NO_DEBUG cfg then Some tt
  else if c then Some tt else None.

(** [EIGEN_MAKE_UNALIGNED_ARRAY_ASSERT(sizemask)], on the address of [array]. *)
Definition EIGEN_MAKE_UNALIGNED_ARRAY_ASSERT (cfg : build) (array_address sizemask : Z) : option unit :=
  if EIGEN_DISABLE_UNALIGNED_ARRAY_ASSERT cfg then Some tt
  else ei_assert cfg (Z.land array_address sizemask =? 0).

(** A build in which the alignment assertion is compiled in. *)
Definition asserting (cfg : build) : Prop :=
  EIGEN_DISABLE_UNALIGNED_ARRAY_ASSERT cfg = false /\ EIGEN_NO_DEBUG cfg = false.

(** Modelled from the spec: [EIGEN_ALIGN16], the annotation of [array] in the
    specialization for [Alignment = 16], by which the array is to satisfy
    the 16-byte alignment requirement of the hardware. *)
Definition EIGEN_ALIGN16 (address : Z) : Prop := address mod 16 = 0.

(** ** The static array [ei_matrix_array] *)

(** The default of the template parameter [Alignment]. *)
Definition Alignment (DontAlign sizeof_T Size MatrixOptions : Z) : Z :=
  if negb (Z.land MatrixOptions DontAlign =? 0) then 0
  else if (Size * sizeof_T) mod 16 =? 0 then 16
  else 0.

Section MatrixArray.
Variable T : Type.

(** The storage an object is constructed in: where it is, and the elements
    found there (construction initializes no element). *)
Record placement : Type := {
  place_addr : Z;
  place_elems : list T
}.

(** [array] is a member: its address is fixed when the object is placed, and
    no member function assigns it. *)
Record ei_matrix_array : Type := {
  array_addr : Z;
  array : list T
}.

Definition array_at (pl : placement) : ei_matrix_array :=
  {| array_addr := place_addr pl; array := place_elems pl |}.

(** [ei_matrix_array()]: the specialization for [Alignment = 16] asserts,
    the primary template does not. *)
Definition ei_matrix_array_ctor (cfg : build) (Alignment : Z) (pl : placement)
  : option ei_matrix_array :=
  if Alignment =? 16
  then match EIGEN_MAKE_UNALIGNED_ARRAY_ASSERT cfg (place_addr pl) 15 with
       | Some _ => Some (array_at pl)
       | None => None
       end
  else Some (array_at pl).

(** [ei_matrix_array(ei_constructor_without_unaligned_array_assert)]. *)
Definition ei_matrix_array_ctor_skip (Alignment : Z)
    (_ : ei_constructor_without_unaligned_array_assert) (pl : placement)
  : option ei_matrix_array :=
  Some (array_at pl).

(** [std::swap] of two arrays copies the elements across; each array stays
    where it is. *)
Definition swap_array (a b : ei_matrix_array) : ei_matrix_array * ei_matrix_array :=
  let '(ea, eb) := std_swap (array a) (array b) in
  ({| array_addr := array_addr a; array := ea |},
   {| array_addr := array_addr b; array := eb |}).

End MatrixArray.

Arguments place_addr {T} _.
Arguments place_elems {T} _.
Arguments array_addr {T} _.
Arguments array {T} _.
Arguments array_at {T} _.
Arguments ei_matrix_array_ctor {T} _ _ _.
Arguments ei_matrix_array_ctor_skip {T} _ _ _.
Arguments swap_array {T} _ _.

(** ** The storage classes

    One module per class template, named after its template arguments
    [Size], [_Rows], [_Cols]: [S], [R], [C] for a compile-time value, [D]
    for [Dynamic], [0] for the null matrix.  A member function takes the
    object as its last argument and gives the object back when it changes
    it.  The classes that hold an [ei_matrix_array] are constructed in a
    [placement]; their construction fails ([None]) when the alignment
    assertion does. *)

(** *** Purely fixed-size matrix *)
Module Storage_S_R_C.
Section Class.
Variable T : Type.
Variables DontAlign sizeof_T : Z.
Variable cfg : build.
Variables Size _Rows _Cols _Options : Z.

Record ei_matrix_storage : Type := { m_data : ei_matrix_array T }.

Definition ctor (pl : placement T) : option ei_matrix_storage :=
  a ← ei_matrix_array_ctor cfg (Alignment DontAlign sizeof_T Size _Options) pl;
  Some {| m_data := a |}.

Definition ctor_skip (tag : ei_constructor_without_unaligned_array_assert)
    (pl : placement T) : option ei_matrix_storage :=
  a ← ei_matrix_array_ctor_skip (Alignment DontAlign sizeof_T Size _Options) tag pl;
  Some {| m_data := a |}.

Definition ctor3 (size rows cols : Z) (pl : placement T) : option ei_matrix_storage :=
  a ← ei_matrix_array_ctor cfg (Alignment DontAlign sizeof_T Size _Options) pl;
  Some {| m_data := a |}.

Definition swap (this other : ei_matrix_storage) : ei_matrix_storage * ei_matrix_storage :=
  let '(d1, d2) := swap_array (m_data this) (m_data other) in
  ({| m_data := d1 |}, {| m_data := d2 |}).

Definition rows : Z := _Rows.
Definition cols : Z := _Cols.

Definition resize (size rows cols : Z) (this : ei_matrix_storage) : ei_matrix_storage :=
  this.

Definition data (this : ei_matrix_storage) : Z := array_addr (m_data this).

End Class.
End Storage_S_R_C.

(** *** Null matrix *)
Module Storage_0_R_C.
Section Class.
Variables _Rows _Cols : Z.

(** The class has no data member. *)
Inductive ei_matrix_storage : Type := the_null_storage.

Definition ctor : ei_matrix_storage := the_null_storage.

Definition ctor_skip (tag : ei_constructor_without_unaligned_array_assert)
  : ei_matrix_storage := the_null_storage.

Definition ctor3 (size rows cols : Z) : ei_matrix_storage := the_null_storage.

Definition swap (this other : ei_matrix_storage) : ei_matrix_storage * ei_matrix_storage :=
  (this, other).

Definition rows : Z := _Rows.
Definition cols : Z := _Cols.

Definition resize (size rows cols : Z) (this : ei_matrix_storage) : ei_matrix_storage :=
  this.

Definition data (this : ei_matrix_storage) : Z := 0.

End Class.
End Storage_0_R_C.

(** *** Dynamic-size matrix with fixed-size storage *)
Module Storage_S_D_D.
Section Class.
Variable T : Type.
Variables DontAlign sizeof_T : Z.
Variable cfg : build.
Variables Size _Options : Z.

Record ei_matrix_storage : Type := {
  m_data : ei_matrix_array T;
  m_rows : Z;
  m_cols : Z
}.

Definition ctor (pl : placement T) : option ei_matrix_storage :=
  a ← ei_matrix_array_ctor cfg (Alignment DontAlign sizeof_T Size _Options) pl;
  Some {| m_data := a; m_rows := 0; m_cols := 0 |}.

Definition ctor_skip (tag : ei_constructor_without_unaligned_array_assert)
    (pl : placement T) : option ei_matrix_storage :=
  a ← ei_matrix_array_ctor_skip (Alignment DontAlign sizeof_T Size _Options) tag pl;
  Some {| m_data := a; m_rows := 0; m_cols := 0 |}.

Definition ctor3 (size rows cols : Z) (pl : placement T) : option ei_matrix_storage :=
  a ← ei_matrix_array_ctor cfg (Alignment DontAlign sizeof_T Size _Options) pl;
  Some {| m_data := a; m_rows := rows; m_cols := cols |}.

Definition swap (this other : ei_matrix_storage) : ei_matrix_storage * ei_matrix_storage :=
  let '(d1, d2) := swap_array (m_data this) (m_data other) in
  let '(r1, r2) := std_swap (m_rows this) (m_rows other) in
  let '(c1, c2) := std_swap (m_cols this) (m_cols other) in
  ({| m_data := d1; m_rows := r1; m_cols := c1 |},
   {| m_data := d2; m_rows := r2; m_cols := c2 |}).

Definition rows (this : ei_matrix_storage) : Z := m_rows this.
Definition cols (this : ei_matrix_storage) : Z := m_cols this.

Definition resize (size rows cols : Z) (this : ei_matrix_storage) : ei_matrix_storage :=
  {| m_data := m_data this; m_rows := rows; m_cols := cols |}.

Definition data (this : ei_matrix_storage) : Z := array_addr (m_data this).

End Class.
End Storage_S_D_D.

(** *** Dynamic-size matrix with fixed-size storage and fixed width *)
Module Storage_S_D_C.
Section Class.
Variable T : Type.
Variables DontAlign sizeof_T : Z.
Variable cfg : build.
Variables Size _Cols _Options : Z.

Record ei_matrix_storage : Type := {
  m_data : ei_matrix_array T;
  m_rows : Z
}.

Definition ctor (pl : placement T) : option ei_matrix_storage :=
  a ← ei_matrix_array_ctor cfg (Alignment DontAlign sizeof_T Size _Options) pl;
  Some {| m_data := a; m_rows := 0 |}.

Definition ctor_skip (tag : ei_constructor_without_unaligned_array_assert)
    (pl : placement T) : option ei_matrix_storage :=
  a ← ei_matrix_array_ctor_skip (Alignment DontAlign sizeof_T Size _Options) tag pl;
  Some {| m_data := a; m_rows := 0 |}.

Definition ctor3 (size rows cols : Z) (pl : placement T) : option ei_matrix_storage :=
  a ← ei_matrix_array_ctor cfg (Alignment DontAlign sizeof_T Size _Options) pl;
  Some {| m_data := a; m_rows := rows |}.

Definition swap (this other : ei_matrix_storage) : ei_matrix_storage * ei_matrix_storage :=
  let '(d1, d2) := swap_array (m_data this) (m_data other) in
  let '(r1, r2) := std_swap (m_rows this) (m_rows other) in
  ({| m_data := d1; m_rows := r1 |}, {| m_data := d2; m_rows := r2 |}).

Definition rows (this : ei_matrix_storage) : Z := m_rows this.
Definition cols (this : ei_matrix_storage) : Z := _Cols.

Definition resize (size rows cols : Z) (this : ei_matrix_storage) : ei_matrix_storage :=
  {| m_data := m_data this; m_rows := rows |}.

Definition data (this : ei_matrix_storage) : Z := array_addr (m_data this).

End Class.
End Storage_S_D_C.

(** *** Dynamic-size matrix with fixed-size storage and fixed height *)
Module Storage_S_R_D.
Section Class.
Variable T : Type.
Variables DontAlign sizeof_T : Z.
Variable cfg : build.
Variables Size _Rows _Options : Z.

Record ei_matrix_storage : Type := {
  m_data : ei_matrix_array T;
  m_cols : Z
}.

Definition ctor (pl : placement T) : option ei_matrix_storage :=
  a ← ei_matrix_array_ctor cfg (Alignment DontAlign sizeof_T Size _Options) pl;
  Some {| m_data := a; m_cols := 0 |}.

Definition ctor_skip (tag : ei_constructor_without_unaligned_array_assert)
    (pl : placement T) : option ei_matrix_storage :=
  a ← ei_matrix_array_ctor_skip (Alignment DontAlign sizeof_T Size _Options) tag pl;
  Some {| m_data := a; m_cols := 0 |}.

Definition ctor3 (size rows cols : Z) (pl : placement T) : option ei_matrix_storage :=
  a ← ei_matrix_array_ctor cfg (Alignment DontAlign sizeof_T Size _Options) pl;
  Some {| m_data := a; m_cols := cols |}.

Definition swap (this other : ei_matrix_storage) : ei_matrix_storage * ei_matrix_storage :=
  let '(d1, d2) := swap_array (m_data this) (m_data other) in
  let '(c1, c2) := std_swap (m_cols this) (m_cols other) in
  ({| m_data := d1; m_cols := c1 |}, {| m_data := d2; m_cols := c2 |}).

Definition rows (this : ei_matrix_storage) : Z := _Rows.
Definition cols (this : ei_matrix_storage) : Z := m_cols this.

Definition resize (size rows cols : Z) (this : ei_matrix_storage) : ei_matrix_storage :=
  {| m_data := m_data this; m_cols := cols |}.

Definition data (this : ei_matrix_storage) : Z := array_addr (m_data this).

End Class.
End Storage_S_R_D.

(** *** Purely dynamic matrix *)
Module Storage_D_D_D.
Section Class.
Variable alloc : allocator.
Variables DontAlign _Options : Z.

Record ei_matrix_storage : Type := {
  m_data : Z;
  m_rows : Z;
  m_cols : Z
}.

(** The template argument [(_Options&DontAlign)==0] of both collaborator calls. *)
Definition Align : bool := Z.land _Options DontAlign =? 0.

Definition ctor : M ei_matrix_storage :=
  ret {| m_data := 0; m_rows := 0; m_cols := 0 |}.

Definition ctor_skip (tag : ei_constructor_without_unaligned_array_assert)
  : M ei_matrix_storage :=
  ret {| m_data := 0; m_rows := 0; m_cols := 0 |}.

Definition ctor3 (size rows cols : Z) : M ei_matrix_storage :=
  p <~ ei_conditional_aligned_new alloc Align size ;;
  ret {| m_data := p; m_rows := rows; m_cols := cols |}.

Definition dtor (this : ei_matrix_storage) : M unit :=
  ei_conditional_aligned_delete Align (m_data this) (int_mul (m_rows this) (m_cols this)).

Definition swap (this other : ei_matrix_storage) : ei_matrix_storage * ei_matrix_storage :=
  let '(d1, d2) := std_swap (m_data this) (m_data other) in
  let '(r1, r2) := std_swap (m_rows this) (m_rows other) in
  let '(c1, c2) := std_swap (m_cols this) (m_cols other) in
  ({| m_data := d1; m_rows := r1; m_cols := c1 |},
   {| m_data := d2; m_rows := r2; m_cols := c2 |}).

Definition rows (this : ei_matrix_storage) : Z := m_rows this.
Definition cols (this : ei_matrix_storage) : Z := m_cols this.

Definition resize (size rows cols : Z) (this : ei_matrix_storage) : M ei_matrix_storage :=
  if negb (size =? int_mul (m_rows this) (m_cols this))
  then
    u <~ ei_conditional_aligned_delete Align (m_data this)
           (int_mul (m_rows this) (m_cols this)) ;;
    p <~ (if negb (size =? 0)
          then ei_conditional_aligned_new alloc Align size
          else ret 0) ;;
    ret {| m_data := p; m_rows := rows; m_cols := cols |}
  else
    ret {| m_data := m_data this; m_rows := rows; m_cols := cols |}.

Definition data (this : ei_matrix_storage) : Z := m_data this.

End Class.
End Storage_D_D_D.

(** *** Matrix with dynamic width and fixed height *)
Module Storage_D_R_D.
Section Class.
Variable alloc : allocator.
Variables DontAlign _Rows _Options : Z.

Record ei_matrix_storage : Type := {
  m_data : Z;
  m_cols : Z
}.

Definition Align : bool := Z.land _Options DontAlign =? 0.

Definition ctor : M ei_matrix_storage :=
  ret {| m_data := 0; m_cols := 0 |}.

Definition ctor_skip (tag : ei_constructor_without_unaligned_array_assert)
  : M ei_matrix_storage :=
  ret {| m_data := 0; m_cols := 0 |}.

Definition ctor3 (size rows cols : Z) : M ei_matrix_storage :=
  p <~ ei_conditional_aligned_new alloc Align size ;;
  ret {| m_data := p; m_cols := cols |}.

Definition dtor (this : ei_matrix_storage) : M unit :=
  ei_conditional_aligned_delete Align (m_data this) (int_mul _Rows (m_cols this)).

Definition swap (this other : ei_matrix_storage) : ei_matrix_storage * ei_matrix_storage :=
  let '(d1, d2) := std_swap (m_data this) (m_data other) in
  let '(c1, c2) := std_swap (m_cols this) (m_cols other) in
  ({| m_data := d1; m_cols := c1 |}, {| m_data := d2; m_cols := c2 |}).

Definition rows : Z := _Rows.
Definition cols (this : ei_matrix_storage) : Z := m_cols this.

Definition resize (size rows cols : Z) (this : ei_matrix_storage) : M ei_matrix_storage :=
  if negb (size =? int_mul _Rows (m_cols this))
  then
    u <~ ei_conditional_aligned_delete Align (m_data this)
           (int_mul _Rows (m_cols this)) ;;
    p <~ (if negb (size =? 0)
          then ei_conditional_aligned_new alloc Align size
          else ret 0) ;;
    ret {| m_data := p; m_cols := cols |}
  else
    ret {| m_data := m_data this; m_cols := cols |}.

Definition data (this : ei_matrix_storage) : Z := m_data this.

End Class.
End Storage_D_R_D.

(** *** Matrix with dynamic height and fixed width *)
Module Storage_D_D_C.
Section Class.
Variable alloc : allocator.
Variables DontAlign _Cols _Options : Z.

Record ei_matrix_storage : Type := {
  m_data : Z;
  m_rows : Z
}.

Definition Align : bool := Z.land _Options DontAlign =? 0.

Definition ctor : M ei_matrix_storage :=
  ret {| m_data := 0; m_rows := 0 |}.

Definition ctor_skip (tag : ei_constructor_without_unaligned_array_assert)
  : M ei_matrix_storage :=
  ret {| m_data := 0; m_rows := 0 |}.

Definition ctor3 (size rows cols : Z) : M ei_matrix_storage :=
  p <~ ei_conditional_aligned_new alloc Align size ;;
  ret {| m_data := p; m_rows := rows |}.

Definition dtor (this : ei_matrix_storage) : M unit :=
  ei_conditional_aligned_delete Align (m_data this) (int_mul _Cols (m_rows this)).

Definition swap (this other : ei_matrix_storage) : ei_matrix_storage * ei_matrix_storage :=
  let '(d1, d2) := std_swap (m_data this) (m_data other) in
  let '(r1, r2) := std_swap (m_rows this) (m_rows other) in
  ({| m_data := d1; m_rows := r1 |}, {| m_data := d2; m_rows := r2 |}).

Definition rows (this : ei_matrix_storage) : Z := m_rows this.
Definition cols : Z := _Cols.

Definition resize (size rows cols : Z) (this : ei_matrix_storage) : M ei_matrix_storage :=
  if negb (size =? int_mul (m_rows this) _Cols)
  then
    u <~ ei_conditional_aligned_delete Align (m_data this)
           (int_mul _Cols (m_rows this)) ;;
    p <~ (if negb (size =? 0)
          then ei_conditional_aligned_new alloc Align size
          else ret 0) ;;
    ret {| m_data := p; m_rows := rows |}
  else
    ret {| m_data := m_data this; m_rows := rows |}.

Definition data (this : ei_matrix_storage) : Z := m_data this.

End Class.
End Storage_D_D_C.

(** ** Two objects of one class under [resize] and [swap]

    For the classes that never call the collaborator: a program that
    resizes either of two objects of the same class and swaps them. *)
Section TwoObjects.
Variable S : Type.
Variable resize : Z -> Z -> Z -> S -> S.
Variable swap : S -> S -> S * S.

Inductive op2 : Type :=
| ResizeA (size rows cols : Z)
| ResizeB (size rows cols : Z)
| SwapAB
| SwapBA.

Definition step2 (ab : S * S) (o : op2) : S * S :=
  match o with
  | ResizeA size rows cols => (resize size rows cols (fst ab), snd ab)
  | ResizeB size rows cols => (fst ab, resize size rows cols (snd ab))
  | SwapAB => swap (fst ab) (snd ab)
  | SwapBA => let '(b, a) := swap (snd ab) (fst ab) in (a, b)
  end.

Definition run2 (ops : list op2) (ab : S * S) : S * S := foldl step2 ab ops.

(** A sequence of [resize] calls on one object, each given as
    [(size, rows, cols)]. *)
Definition resize_all (calls : list (Z * Z * Z)) (this : S) : S :=
  foldl (fun s '(size, rows, cols) => resize size rows cols s) this calls.

End TwoObjects.

Arguments step2 {S} _ _ _ _.
Arguments run2 {S} _ _ _ _.
Arguments resize_all {S} _ _ _.

(** ** The alignment of an inline buffer

    What a class with an inline array of [Alignment = 16] does about the
    alignment of its buffer:
    - whichever constructor returns the object, its [data()] is the address
      of the placement, on a 16-byte boundary or not;
    - in an asserting build the checked constructors fail exactly when the
      placement is off the boundary, so [data()] is aligned whenever they
      return;
    - the skip-check constructor always returns, with [data()] the address
      of the placement as it is;
    - [resize] and [swap] leave [data()] of both objects as it was. *)
Definition alignment_contract {T S : Type} (cfg : build)
    (ctor : placement T -> option S)
    (ctor_skip : ei_constructor_without_unaligned_array_assert -> placement T -> option S)
    (ctor3 : Z -> Z -> Z -> placement T -> option S)
    (resize : Z -> Z -> Z -> S -> S) (swap : S -> S -> S * S) (data : S -> Z) : Prop :=
  (forall pl tag n r c s,
     ctor pl = Some s \/ ctor_skip tag pl = Some s \/ ctor3 n r c pl = Some s ->
     data s = place_addr pl) /\
  (asserting cfg -> forall pl n r c,
     (ctor pl = None <-> ~ EIGEN_ALIGN16 (place_addr pl)) /\
     (ctor3 n r c pl = None <-> ~ EIGEN_ALIGN16 (place_addr pl)) /\
     (forall s, ctor pl = Some s \/ ctor3 n r c pl = Some s -> EIGEN_ALIGN16 (data s))) /\
  (forall tag pl, exists s, ctor_skip tag pl = Some s /\ data s = place_addr pl) /\
  (forall ops a b,
     data (run2 resize swap ops (a, b)).1 = data a /\
     data (run2 resize swap ops (a, b)).2 = data b).

(** ** The contract the heap-backed classes share *)
Class HeapStorage (S : Type) : Type := {
  hs_ctor : M S;
  hs_ctor_skip : ei_constructor_without_unaligned_array_assert -> M S;
  hs_ctor3 : Z -> Z -> Z -> M S;
  hs_dtor : S -> M unit;
  hs_swap : S -> S -> S * S;
  hs_rows : S -> Z;
  hs_cols : S -> Z;
  hs_resize : Z -> Z -> Z -> S -> M S;
  hs_data : S -> Z
}.

(** The three heap-backed classes as instances of the contract. *)
#[export] Instance Storage_D_D_D_heap (alloc : allocator) (DontAlign _Options : Z)
  : HeapStorage Storage_D_D_D.ei_matrix_storage := {
  hs_ctor := Storage_D_D_D.ctor;
  hs_ctor_skip := Storage_D_D_D.ctor_skip;
  hs_ctor3 := Storage_D_D_D.ctor3 alloc DontAlign _Options;
  hs_dtor := Storage_D_D_D.dtor DontAlign _Options;
  hs_swap := Storage_D_D_D.swap;
  hs_rows := Storage_D_D_D.rows;
  hs_cols := Storage_D_D_D.cols;
  hs_resize := Storage_D_D_D.resize alloc DontAlign _Options;
  hs_data := Storage_D_D_D.data
}.

#[export] Instance Storage_D_R_D_heap (alloc : allocator) (DontAlign _Rows _Options : Z)
  : HeapStorage Storage_D_R_D.ei_matrix_storage := {
  hs_ctor := Storage_D_R_D.ctor;
  hs_ctor_skip := Storage_D_R_D.ctor_skip;
  hs_ctor3 := Storage_D_R_D.ctor3 alloc DontAlign _Options;
  hs_dtor := Storage_D_R_D.dtor DontAlign _Rows _Options;
  hs_swap := Storage_D_R_D.swap;
  hs_rows := fun _ => Storage_D_R_D.rows _Rows;
  hs_cols := Storage_D_R_D.cols;
  hs_resize := Storage_D_R_D.resize alloc DontAlign _Rows _Options;
  hs_data := Storage_D_R_D.data
}.

#[export] Instance Storage_D_D_C_heap (alloc : allocator) (DontAlign _Cols _Options : Z)
  : HeapStorage Storage_D_D_C.ei_matrix_storage := {
  hs_ctor := Storage_D_D_C.ctor;
  hs_ctor_skip := Storage_D_D_C.ctor_skip;
  hs_ctor3 := Storage_D_D_C.ctor3 alloc DontAlign _Options;
  hs_dtor := Storage_D_D_C.dtor DontAlign _Cols _Options;
  hs_swap := Storage_D_D_C.swap;
  hs_rows := Storage_D_D_C.rows;
  hs_cols := fun _ => Storage_D_D_C.cols _Cols;
  hs_resize := Storage_D_D_C.resize alloc DontAlign _Cols _Options;
  hs_data := Storage_D_D_C.data
}.

(** ** The objects of one heap-backed class

    A program constructs objects, resizes and swaps the ones it has, and
    destroys them.  The objects that are there are numbered in the order of
    their construction; an operation on an object that is not there has no
    execution. *)
Section Pool.
Context {S : Type} {HS : HeapStorage S}.

(** [rows() * cols()], as the class computes it. *)
Definition element_count (s : S) : Z := int_mul (hs_rows s) (hs_cols s).

Inductive op : Type :=
| Construct (size rows cols : Z)
| ConstructDefault
| ConstructSkip
| Resize (i : nat) (size rows cols : Z)
| Swap (i j : nat)
| Destroy (i : nat).

Definition no_object {A : Type} : M A := fun _ => None.

Definition step (o : op) (pool : list S) : M (list S) :=
  match o with
  | Construct size rows cols =>
      s <~ hs_ctor3 size rows cols ;; ret (pool ++ [s])
  | ConstructDefault =>
      s <~ hs_ctor ;; ret (pool ++ [s])
  | ConstructSkip =>
      s <~ hs_ctor_skip without_unaligned_array_assert ;; ret (pool ++ [s])
  | Resize i size rows cols =>
      match pool !! i with
      | Some s => s' <~ hs_resize size rows cols s ;; ret (<[i := s']> pool)
      | None => no_object
      end
  | Swap i j =>
      match pool !! i, pool !! j with
      | Some a, Some b =>
          let '(a', b') := hs_swap a b in
          ret (<[j := b']> (<[i := a']> pool))
      | _, _ => no_object
      end
  | Destroy i =>
      match pool !! i with
      | Some s => u <~ hs_dtor s ;; ret (delete i pool)
      | None => no_object
      end
  end.

Fixpoint run (ops : list op) (pool : list S) : M (list S) :=
  match ops with
  | [] => ret pool
  | o :: ops' => pool' <~ step o pool ;; run ops' pool'
  end.

(** The number of elements the buffer at [p] was allocated with: zero for
    the null pointer. *)
Definition allocated_with (tr : trace) (p : Z) : Z :=
  if p =? 0 then 0 else default 0 (blocks tr !! p).

(** An operation whose element count is the product of the dimensions the
    object reports afterwards ([count rows cols], for the class at hand). *)
Definition consistent (count : Z -> Z -> Z) (o : op) : Prop :=
  match o with
  | Construct size rows cols => size = count rows cols /\ 0 <= size
  | Resize _ size rows cols => size = count rows cols /\ 0 <= size
  | _ => True
  end.

(** A three-argument construction of a matrix that is not empty. *)
Definition constructs_nonempty (o : op) : Prop :=
  match o with
  | Construct size _ _ => size <> 0
  | _ => True
  end.

(** The object holds no buffer and no element, or the live buffer it points
    to was allocated with [rows() * cols()] elements. *)
Definition owns (tr : trace) (s : S) : Prop :=
  (hs_data s = 0 -> element_count s = 0) /\
  (hs_data s <> 0 -> blocks tr !! hs_data s = Some (element_count s)).

(** Every object owns its buffer, and no two objects share one. *)
Definition pool_inv (pool : list S) (tr : trace) : Prop :=
  (forall i s, pool !! i = Some s -> owns tr s) /\
  (forall i j a b, pool !! i = Some a -> pool !! j = Some b -> i <> j ->
                   hs_data a <> 0 -> hs_data a <> hs_data b).

(** The pointer is null exactly when [rows() * cols()] is zero. *)
Definition null_iff_empty (s : S) : Prop :=
  hs_data s = 0 <-> element_count s = 0.

End Pool.

(** The allocator gives no null pointer for a positive element count. *)
Definition alloc_nonnull (alloc : allocator) : Prop :=
  forall tr al n p, alloc tr al n = Some p -> 0 < n -> p <> 0.

(** The allocator gives no buffer that is still allocated. *)
Definition alloc_fresh (alloc : allocator) : Prop :=
  forall tr al n p, alloc tr al n = Some p -> p <> 0 -> blocks tr !! p = None.

(** ** What the laws of the shared contract are

    [align] is the [Align] argument of every collaborator call of the class
    and [count rows cols] the element count of the shape the class takes
    when it is asked for [rows] and [cols]. *)
Record HeapStorageLaws {S : Type} (HS : HeapStorage S) (alloc : allocator)
    (align : bool) (count : Z -> Z -> Z) : Prop := {
  law_ctor : forall tr, exists s,
      hs_ctor tr = Some (s, tr) /\ hs_data s = 0 /\ element_count s = 0;
  law_ctor_skip : forall tag tr, exists s,
      hs_ctor_skip tag tr = Some (s, tr) /\ hs_data s = 0 /\ element_count s = 0;
  law_ctor3 : forall n r c tr s tr',
      hs_ctor3 n r c tr = Some (s, tr') ->
      alloc tr align n = Some (hs_data s) /\
      tr' = tr ++ [EvNew align n (hs_data s)] /\
      element_count s = count r c;
  law_resize_same : forall n r c s tr,
      n = element_count s ->
      exists s', hs_resize n r c s tr = Some (s', tr) /\
                 hs_data s' = hs_data s /\ element_count s' = count r c;
  law_resize_zero : forall n r c s tr,
      n <> element_count s -> n = 0 ->
      exists s', hs_resize n r c s tr
                 = Some (s', tr ++ [EvDelete align (hs_data s) (element_count s)]) /\
                 hs_data s' = 0 /\ element_count s' = count r c;
  law_resize_new : forall n r c s tr s' tr',
      n <> element_count s -> n <> 0 ->
      hs_resize n r c s tr = Some (s', tr') ->
      alloc (tr ++ [EvDelete align (hs_data s) (element_count s)]) align n
        = Some (hs_data s') /\
      tr' = tr ++ [EvDelete align (hs_data s) (element_count s);
                   EvNew align n (hs_data s')] /\
      element_count s' = count r c;
  law_swap : forall a b,
      hs_data (hs_swap a b).1 = hs_data b /\
      element_count (hs_swap a b).1 = element_count b /\
      hs_data (hs_swap a b).2 = hs_data a /\
      element_count (hs_swap a b).2 = element_count a;
  law_dtor : forall s tr,
      hs_dtor s tr = Some (tt, tr ++ [EvDelete align (hs_data s) (element_count s)])
}.

(** An allocator for the examples: the first 16-byte boundary above every
    address given so far. *)
Definition top_of (hi : Z) (e : event) : Z :=
  match e with
  | EvNew _ _ p => Z.max hi p
  | EvDelete _ _ _ => hi
  end.

Definition top (tr : trace) : Z := foldl top_of 0 tr.

Definition bump : allocator :=
  fun tr _ _ => Some (16 * (top tr / 16) + 16).

(** ** Who holds which buffer

    Three facts about a pool and the trace that led to it, none of which
    mentions an element count: every buffer an object points to is allocated,
    no two objects point to the same buffer, and every allocated buffer is
    pointed to by an object. *)
Section Ownership.
Context {S : Type} {HS : HeapStorage S}.

Definition own_inv (pool : list S) (tr : trace) : Prop :=
  (forall i s, pool !! i = Some s -> hs_data s <> 0 ->
               is_Some (blocks tr !! hs_data s)) /\
  (forall i j a b, pool !! i = Some a -> pool !! j = Some b -> i <> j ->
                   hs_data a <> 0 -> hs_data a <> hs_data b) /\
  (forall p, p <> 0 -> is_Some (blocks tr !! p) ->
             exists i s, pool !! i = Some s /\ hs_data s = p).

(** A sequence of [resize] calls on one object, each given as
    [(size, rows, cols)]. *)
Fixpoint hs_resize_all (calls : list (Z * Z * Z)) (this : S) : M S :=
  match calls with
  | [] => ret this
  | (size, rows, cols) :: calls' =>
      s <~ hs_resize size rows cols this ;; hs_resize_all calls' s
  end.

End Ownership.

(** ** Releases that match the allocations

    A release is in order when it is of the null pointer or of a buffer that
    is allocated at that point of the trace; with [sized], the element count
    it passes must also be the one the buffer was allocated with (zero for
    the null pointer). *)
Definition release_ok (sized : bool) (live : gmap Z Z) (e : event) : bool :=
  match e with
  | EvNew _ _ _ => true
  | EvDelete _ p n =>
      if p =? 0 then negb sized || (n =? 0)
      else match live !! p with
           | Some m => negb sized || (n =? m)
           | None => false
           end
  end.

Fixpoint releases_ok (sized : bool) (live : gmap Z Z) (tr : trace) : bool :=
  match tr with
  | [] => true
  | e :: tr' => release_ok sized live e && releases_ok sized (apply_event live e) tr'
  end.

(** The request that counts after a construction and a sequence of [resize]
    calls: the last one. *)
Definition last_request (first : Z * Z * Z) (calls : list (Z * Z * Z)) : Z * Z * Z :=
  List.last calls first.

(** A program whose element counts do not agree with its shapes, and what
    it leads to with the allocator of the examples. *)
Definition careless_ops : list op :=
  [Construct 6 2 2; Resize 0 6 5 5; ConstructDefault; Swap 0 1; Resize 1 3 1 1;
   Construct 0 0 0; Destroy 0].

Definition careless_pool : list Storage_D_D_D.ei_matrix_storage :=
  [{| Storage_D_D_D.m_data := 48; Storage_D_D_D.m_rows := 1; Storage_D_D_D.m_cols := 1 |};
   {| Storage_D_D_D.m_data := 64; Storage_D_D_D.m_rows := 0; Storage_D_D_D.m_cols := 0 |}].

Definition careless_trace : trace :=
  [EvNew true 6 16; EvDelete true 16 4; EvNew true 6 32; EvDelete true 32 25;
   EvNew true 3 48; EvNew true 0 64; EvDelete true 0 0].

(** The [swap] operations of a program over two objects. *)
Definition is_swap (o : op2) : bool :=
  match o with
  | SwapAB | SwapBA => true
  | ResizeA _ _ _ | ResizeB _ _ _ => false
  end.

Definition count_swaps (ops : list op2) : nat := length (filter is_swap ops).

(** * Properties *)

(** ** Integers, the monad, the trace *)

Lemma int_mul_comm (a b : Z) : int_mul a b = int_mul b a.
Proof. unfold int_mul. by rewrite Z.mul_comm. Qed.

Lemma int_mul_0_l (a : Z) : int_mul 0 a = 0.
Proof. unfold int_mul. rewrite Z.mul_0_l. reflexivity. Qed.

Lemma int_mul_0_r (a : Z) : int_mul a 0 = 0.
Proof. rewrite int_mul_comm. apply int_mul_0_l. Qed.

(** A product that fits an [int] is the product. *)
Lemma int_mul_exact (a b : Z) : - 2 ^ 31 <= a * b < 2 ^ 31 -> int_mul a b = a * b.
Proof. intros Hz. unfold int_mul, int_wrap. rewrite Z.mod_small; lia. Qed.

Lemma blocks_snoc (tr : trace) (e : event) :
  blocks (tr ++ [e]) = apply_event (blocks tr) e.
Proof. unfold blocks. by rewrite foldl_app. Qed.

Lemma land_15_mod_16 (a : Z) : Z.land a 15 = a mod 16.
Proof. change 15 with (Z.ones 4). rewrite Z.land_ones by lia. reflexivity. Qed.

(** Unfolds the calls of the collaborator and the monad. *)
Ltac unfold_M :=
  unfold bind, ret, no_object, ei_conditional_aligned_new,
    ei_conditional_aligned_delete in *.

Lemma Storage_D_D_D_laws (alloc : allocator) (DontAlign _Options : Z) :
  HeapStorageLaws (Storage_D_D_D_heap alloc DontAlign _Options) alloc
    (Storage_D_D_D.Align DontAlign _Options) (fun r c => int_mul r c).
Proof.
  split; unfold element_count; cbn.
  - intros tr. eexists. split; [reflexivity|]. cbn. split; [done|]. apply int_mul_0_l.
  - intros tag tr. eexists. split; [reflexivity|]. cbn. split; [done|]. apply int_mul_0_l.
  - intros n r c tr s tr'. unfold Storage_D_D_D.ctor3. unfold_M.
    destruct (alloc tr _ n) as [p|]; [|done]. intros [= <- <-]. done.
  - intros n r c s tr ->. unfold Storage_D_D_D.resize, Storage_D_D_D.rows, Storage_D_D_D.cols.
    rewrite Z.eqb_refl. cbn. eexists. split; [reflexivity|]. done.
  - intros n r c s tr Hne ->. unfold Storage_D_D_D.resize, Storage_D_D_D.rows, Storage_D_D_D.cols in *.
    destruct (Z.eqb_spec 0 (int_mul (Storage_D_D_D.m_rows s) (Storage_D_D_D.m_cols s))); [done|].
    cbn. unfold_M. eexists. split; [reflexivity|]. cbn. tauto.
  - intros n r c s tr s' tr' Hne Hn0.
    unfold Storage_D_D_D.resize, Storage_D_D_D.rows, Storage_D_D_D.cols in *.
    destruct (Z.eqb_spec n (int_mul (Storage_D_D_D.m_rows s) (Storage_D_D_D.m_cols s))); [done|].
    destruct (Z.eqb_spec n 0); [done|]. cbn. unfold_M.
    destruct (alloc _ _ n) as [p|]; [|done]. intros [= <- <-]. cbn.
    rewrite <- app_assoc. done.
  - intros a b. done.
  - intros s tr. reflexivity.
Qed.

Lemma Storage_D_R_D_laws (alloc : allocator) (DontAlign _Rows _Options : Z) :
  HeapStorageLaws (Storage_D_R_D_heap alloc DontAlign _Rows _Options) alloc
    (Storage_D_R_D.Align DontAlign _Options) (fun r c => int_mul _Rows c).
Proof.
  split; unfold element_count; cbn.
  - intros tr. eexists. split; [reflexivity|]. cbn. split; [done|]. apply int_mul_0_r.
  - intros tag tr. eexists. split; [reflexivity|]. cbn. split; [done|]. apply int_mul_0_r.
  - intros n r c tr s tr'. unfold Storage_D_R_D.ctor3. unfold_M.
    destruct (alloc tr _ n) as [p|]; [|done]. intros [= <- <-]. done.
  - intros n r c s tr ->. unfold Storage_D_R_D.resize, Storage_D_R_D.rows, Storage_D_R_D.cols.
    rewrite Z.eqb_refl. cbn. eexists. split; [reflexivity|]. done.
  - intros n r c s tr Hne ->. unfold Storage_D_R_D.resize, Storage_D_R_D.rows, Storage_D_R_D.cols in *.
    destruct (Z.eqb_spec 0 (int_mul _Rows (Storage_D_R_D.m_cols s))); [done|].
    cbn. unfold_M. eexists. split; [reflexivity|]. cbn. tauto.
  - intros n r c s tr s' tr' Hne Hn0.
    unfold Storage_D_R_D.resize, Storage_D_R_D.rows, Storage_D_R_D.cols in *.
    destruct (Z.eqb_spec n (int_mul _Rows (Storage_D_R_D.m_cols s))); [done|].
    destruct (Z.eqb_spec n 0); [done|]. cbn. unfold_M.
    destruct (alloc _ _ n) as [p|]; [|done]. intros [= <- <-]. cbn.
    rewrite <- app_assoc. done.
  - intros a b. done.
  - intros s tr. reflexivity.
Qed.

Lemma Storage_D_D_C_laws (alloc : allocator) (DontAlign _Cols _Options : Z) :
  HeapStorageLaws (Storage_D_D_C_heap alloc DontAlign _Cols _Options) alloc
    (Storage_D_D_C.Align DontAlign _Options) (fun r c => int_mul r _Cols).
Proof.
  split; unfold element_count; cbn.
  - intros tr. eexists. split; [reflexivity|]. cbn. split; [done|]. apply int_mul_0_l.
  - intros tag tr. eexists. split; [reflexivity|]. cbn. split; [done|]. apply int_mul_0_l.
  - intros n r c tr s tr'. unfold Storage_D_D_C.ctor3. unfold_M.
    destruct (alloc tr _ n) as [p|]; [|done]. intros [= <- <-]. done.
  - intros n r c s tr ->. unfold Storage_D_D_C.resize, Storage_D_D_C.rows, Storage_D_D_C.cols.
    rewrite Z.eqb_refl. cbn. eexists. split; [reflexivity|]. done.
  - intros n r c s tr Hne ->. unfold Storage_D_D_C.resize, Storage_D_D_C.rows, Storage_D_D_C.cols in *.
    destruct (Z.eqb_spec 0 (int_mul (Storage_D_D_C.m_rows s) _Cols)); [done|].
    cbn. unfold_M. eexists. split; [by rewrite (int_mul_comm _Cols)|]. done.
  - intros n r c s tr s' tr' Hne Hn0.
    unfold Storage_D_D_C.resize, Storage_D_D_C.rows, Storage_D_D_C.cols in *.
    destruct (Z.eqb_spec n (int_mul (Storage_D_D_C.m_rows s) _Cols)); [done|].
    destruct (Z.eqb_spec n 0); [done|]. cbn. unfold_M.
    rewrite (int_mul_comm _Cols).
    destruct (alloc _ _ n) as [p|]; [|done]. intros [= <- <-]. cbn.
    rewrite <- app_assoc. done.
  - intros a b. done.
  - intros s tr. unfold Storage_D_D_C.dtor, Storage_D_D_C.rows, Storage_D_D_C.cols.
    by rewrite (int_mul_comm _Cols).
Qed.

(** ** Ownership of the buffers in a pool of objects *)
Section PoolInvariant.
Context {S : Type} {HS : HeapStorage S}.
Variable alloc : allocator.
Variable align : bool.
Variable count : Z -> Z -> Z.
Hypothesis laws : HeapStorageLaws HS alloc align count.
Hypothesis Hnonnull : alloc_nonnull alloc.
Hypothesis Hfresh : alloc_fresh alloc.

Lemma owns_allocated_with (tr : trace) (s : S) :
  owns tr s -> element_count s = allocated_with tr (hs_data s).
Proof.
  intros [H0 H1]. unfold allocated_with.
  destruct (Z.eqb_spec (hs_data s) 0) as [e|n]; [auto|].
  by rewrite (H1 n).
Qed.

Lemma pool_inv_nil (tr : trace) : pool_inv [] tr.
Proof. split; intros *; by rewrite lookup_nil. Qed.

(** A new object joins the pool. *)
Lemma pool_inv_snoc (pool : list S) (tr tr' : trace) (s : S) :
  pool_inv pool tr ->
  owns tr' s ->
  (forall q n, q <> 0 -> blocks tr !! q = Some n -> q <> hs_data s ->
               blocks tr' !! q = Some n) ->
  (hs_data s <> 0 -> blocks tr !! hs_data s = None) ->
  pool_inv (pool ++ [s]) tr'.
Proof.
  intros [Hown Hsep] Hs Hkeep Hnew. split.
  - intros i x [Hx | [_ Hx]]%lookup_app_Some.
    + destruct (Hown _ _ Hx) as [H0 H1]. split; [done|].
      intros Hd. apply Hkeep; [auto..|].
      destruct (decide (hs_data s = 0)) as [|Hs0]; [congruence|].
      intros Heq. specialize (Hnew Hs0). rewrite <- Heq, (H1 Hd) in Hnew. done.
    + apply list_lookup_singleton_Some in Hx as [_ <-]. done.
  - intros i j a b [Ha | [Hi Ha]]%lookup_app_Some [Hb | [Hj Hb]]%lookup_app_Some Hij Hd.
    + eauto.
    + apply list_lookup_singleton_Some in Hb as [_ <-].
      intros Heq. destruct (Hown _ _ Ha) as [_ H1].
      assert (hs_data s <> 0) as Hs0 by congruence.
      specialize (Hnew Hs0). rewrite <- Heq, (H1 Hd) in Hnew. done.
    + apply list_lookup_singleton_Some in Ha as [_ <-].
      intros Heq. destruct (Hown _ _ Hb) as [_ H1].
      assert (hs_data b <> 0) as Hb0 by congruence.
      specialize (Hnew Hd). rewrite Heq, (H1 Hb0) in Hnew. done.
    + apply list_lookup_singleton_Some in Ha as [Ha _].
      apply list_lookup_singleton_Some in Hb as [Hb _]. lia.
Qed.

(** The object at [i] is replaced by a state of its own. *)
Lemma pool_inv_update (pool : list S) (tr tr' : trace) (i : nat) (s s' : S) :
  pool_inv pool tr ->
  pool !! i = Some s ->
  owns tr' s' ->
  (forall q n, blocks tr !! q = Some n -> q <> hs_data s -> q <> hs_data s' ->
               blocks tr' !! q = Some n) ->
  (forall q n, blocks tr !! q = Some n -> q <> hs_data s -> hs_data s' <> 0 ->
               q <> hs_data s') ->
  pool_inv (<[i := s']> pool) tr'.
Proof.
  intros [Hown Hsep] Hi Hs' Hkeep Hnew.
  assert (forall k x, k <> i -> pool !! k = Some x -> hs_data x <> 0 ->
            hs_data x <> hs_data s /\ blocks tr !! hs_data x = Some (element_count x))
    as Hother.
  { intros k x Hk Hx Hd. split; [by eapply Hsep|]. by apply (Hown _ _ Hx). }
  split.
  - intros k x [(-> & <- & _) | [Hk Hx]]%list_lookup_insert_Some; [done|].
    destruct (Hown _ _ Hx) as [H0 H1]. split; [done|]. intros Hd.
    destruct (Hother k x) as [Hne Hb]; [done..|].
    apply Hkeep; [done..|].
    destruct (decide (hs_data s' = 0)) as [e|Hs0]; [congruence|].
    eapply Hnew; eauto.
  - intros k1 k2 a b
      [(-> & <- & _) | [Hk1 Ha]]%list_lookup_insert_Some
      [(-> & <- & _) | [Hk2 Hb]]%list_lookup_insert_Some Hne Hd.
    + done.
    + destruct (decide (hs_data b = 0)) as [e|Hb0]; [congruence|].
      destruct (Hother k2 b) as [Hbs Hbb]; [done..|].
      intros Heq. eapply (Hnew (hs_data b)); eauto.
    + destruct (Hother k1 a) as [Has Hab]; [done..|].
      destruct (decide (hs_data s' = 0)) as [e|Hs0]; [congruence|].
      eapply Hnew; eauto.
    + eauto.
Qed.

(** The objects are renumbered by [f], an object may leave, and the buffers
    of those that stay are kept. *)
Lemma pool_inv_reindex (pool pool' : list S) (tr tr' : trace) (f : nat -> nat) :
  pool_inv pool tr ->
  (forall k1 k2, f k1 = f k2 -> k1 = k2) ->
  (forall k x, pool' !! k = Some x ->
     exists y, pool !! f k = Some y /\ hs_data x = hs_data y /\
               element_count x = element_count y /\
               (hs_data y <> 0 -> blocks tr' !! hs_data y = blocks tr !! hs_data y)) ->
  pool_inv pool' tr'.
Proof.
  intros [Hown Hsep] Hinj Hf. split.
  - intros k x Hx. destruct (Hf _ _ Hx) as (y & Hy & Hd & Hc & Hb).
    destruct (Hown _ _ Hy) as [H0 H1]. unfold owns. rewrite Hd, Hc.
    split; [done|]. intros Hy0. rewrite (Hb Hy0). auto.
  - intros k1 k2 a b Ha Hb Hne Hd.
    destruct (Hf _ _ Ha) as (ya & Hya & Hda & _).
    destruct (Hf _ _ Hb) as (yb & Hyb & Hdb & _).
    rewrite Hda, Hdb. eapply Hsep; eauto. congruence.
Qed.

Lemma step_pool_inv (o : op) (pool pool' : list S) (tr tr' : trace) :
  pool_inv pool tr -> consistent count o ->
  step o pool tr = Some (pool', tr') ->
  pool_inv pool' tr'.
Proof.
  intros Hinv Hc Hstep. destruct o as [n r c | | | i n r c | i j | i]; cbn in Hstep.
  - (* Construct *)
    unfold bind in Hstep. destruct (hs_ctor3 n r c tr) as [[s tr1]|] eqn:E; [|done].
    injection Hstep as <- <-.
    destruct (law_ctor3 _ _ _ _ laws _ _ _ _ _ _ E) as (Ha & -> & Hn).
    destruct Hc as [Hc Hpos].
    eapply pool_inv_snoc; [done| | |].
    + split.
      * intros H0. rewrite Hn, <- Hc.
        destruct (decide (0 < n)) as [Hp|]; [|lia].
        by destruct (Hnonnull _ _ _ _ Ha Hp).
      * intros _. rewrite blocks_snoc. cbn. rewrite lookup_insert_eq. congruence.
    + intros q m _ Hq Hne. rewrite blocks_snoc. cbn. by rewrite lookup_insert_ne.
    + intros Hd. by eapply Hfresh.
  - (* ConstructDefault *)
    destruct (law_ctor _ _ _ _ laws tr) as (s & E & Hd & Hn).
    unfold bind in Hstep. rewrite E in Hstep. injection Hstep as <- <-.
    eapply pool_inv_snoc; [done|by split|auto|congruence].
  - (* ConstructSkip *)
    destruct (law_ctor_skip _ _ _ _ laws without_unaligned_array_assert tr)
      as (s & E & Hd & Hn).
    unfold bind in Hstep. rewrite E in Hstep. injection Hstep as <- <-.
    eapply pool_inv_snoc; [done|by split|auto|congruence].
  - (* Resize *)
    destruct (pool !! i) as [s|] eqn:Hi; [|done].
    destruct Hc as [Hc Hpos]. unfold bind in Hstep.
    destruct (decide (n = element_count s)) as [Hsame|Hdiff].
    + destruct (law_resize_same _ _ _ _ laws n r c s tr Hsame) as (s' & E & Hd & Hn).
      rewrite E in Hstep. injection Hstep as <- <-.
      destruct Hinv as [Hown Hsep].
      eapply pool_inv_update; [by split|done| |auto|].
      * destruct (Hown _ _ Hi) as [H0 H1]. unfold owns.
        rewrite Hd, Hn, <- Hc, Hsame. done.
      * intros q m _ Hq _. congruence.
    + destruct (decide (n = 0)) as [Hz|Hnz].
      * destruct (law_resize_zero _ _ _ _ laws n r c s tr Hdiff Hz) as (s' & E & Hd & Hn).
        rewrite E in Hstep. injection Hstep as <- <-.
        eapply pool_inv_update; [done|done| | |].
        -- split; [intros _; congruence|done].
        -- intros q m Hq Hne _. rewrite blocks_snoc. cbn. by rewrite lookup_delete_ne.
        -- intros q m _ _ Hs0. done.
      * destruct (hs_resize n r c s tr) as [[s' tr1]|] eqn:E; [|done].
        injection Hstep as <- <-.
        destruct (law_resize_new _ _ _ _ laws _ _ _ _ _ _ _ Hdiff Hnz E) as (Ha & -> & Hn).
        assert (hs_data s' <> 0) as Hp by (eapply Hnonnull; [done|lia]).
        pose proof (Hfresh _ _ _ _ Ha Hp) as Hf.
        rewrite blocks_snoc in Hf. cbn in Hf.
        assert (forall q m, blocks tr !! q = Some m -> q <> hs_data s -> q <> hs_data s')
          as Hnew.
        { intros q m Hq Hne Heq. subst q. rewrite lookup_delete_ne in Hf by done.
          congruence. }
        eapply pool_inv_update; [done|done| | |].
        -- split; [done|]. intros _.
           change [EvDelete align (hs_data s) (element_count s); EvNew align n (hs_data s')]
             with ([EvDelete align (hs_data s) (element_count s)] ++ [EvNew align n (hs_data s')]).
           rewrite app_assoc, blocks_snoc. cbn. rewrite lookup_insert_eq. congruence.
        -- intros q m Hq Hne Hne'.
           change [EvDelete align (hs_data s) (element_count s); EvNew align n (hs_data s')]
             with ([EvDelete align (hs_data s) (element_count s)] ++ [EvNew align n (hs_data s')]).
           rewrite app_assoc, !blocks_snoc. cbn.
           rewrite lookup_insert_ne by done. by rewrite lookup_delete_ne.
        -- intros q m Hq Hne _. eauto.
  - (* Swap *)
    destruct (pool !! i) as [a|] eqn:Hi; [|done].
    destruct (pool !! j) as [b|] eqn:Hj; [|done].
    destruct (law_swap _ _ _ _ laws a b) as (Ha1 & Ha2 & Hb1 & Hb2).
    destruct (hs_swap a b) as [a' b']. cbn in *. injection Hstep as <- <-.
    eapply (pool_inv_reindex _ _ _ _
              (fun k => if decide (k = j) then i else if decide (k = i) then j else k));
      [done| |].
    + intros k1 k2. repeat case_decide; congruence.
    + intros k x [(-> & <- & _) | [Hk Hx]]%list_lookup_insert_Some.
      * rewrite decide_True by done. exists a. done.
      * rewrite decide_False by done.
        apply list_lookup_insert_Some in Hx as [(-> & <- & _) | [Hk' Hx]].
        -- rewrite decide_True by done. exists b. done.
        -- rewrite decide_False by done. exists x. done.
  - (* Destroy *)
    destruct (pool !! i) as [s|] eqn:Hi; [|done].
    unfold bind in Hstep. rewrite (law_dtor _ _ _ _ laws s tr) in Hstep.
    injection Hstep as <- <-.
    eapply (pool_inv_reindex _ _ _ _
              (fun k => if decide (k < i)%nat then k else Datatypes.S k)); [done| |].
    + intros k1 k2. repeat case_decide; lia.
    + intros k x Hx. rewrite list_lookup_delete in Hx.
      exists x. split; [done|]. split; [done|]. split; [done|].
      intros Hd. rewrite blocks_snoc. cbn. apply lookup_delete_ne.
      destruct Hinv as [_ Hsep]. intros Heq.
      eapply (Hsep _ i x s); [done..| |done|by symmetry].
      case_decide; lia.
Qed.

Lemma run_pool_inv (ops : list op) (pool pool' : list S) (tr tr' : trace) :
  pool_inv pool tr -> Forall (consistent count) ops ->
  run ops pool tr = Some (pool', tr') ->
  pool_inv pool' tr'.
Proof.
  revert pool tr. induction ops as [|o ops IH]; intros pool tr Hinv Hc Hrun; cbn in Hrun.
  - by injection Hrun as <- <-.
  - apply Forall_cons in Hc as [Ho Hc]. unfold bind in Hrun.
    destruct (step o pool tr) as [[pool1 tr1]|] eqn:E; [|done].
    eapply IH; [|done..]. by eapply step_pool_inv.
Qed.

End PoolInvariant.

(** ** Null pointer and empty matrix *)
Section NullIffEmpty.
Context {S : Type} {HS : HeapStorage S}.
Variable alloc : allocator.
Variable align : bool.
Variable count : Z -> Z -> Z.
Hypothesis laws : HeapStorageLaws HS alloc align count.
Hypothesis Hnonnull : alloc_nonnull alloc.

Lemma step_null_iff_empty (o : op) (pool pool' : list S) (tr tr' : trace) :
  Forall null_iff_empty pool ->
  consistent count o -> constructs_nonempty o ->
  step o pool tr = Some (pool', tr') ->
  Forall null_iff_empty pool'.
Proof.
  intros Hinv Hc Hne Hstep.
  destruct o as [n r c | | | i n r c | i j | i]; cbn in Hstep, Hc, Hne.
  - unfold bind in Hstep. destruct (hs_ctor3 n r c tr) as [[s tr1]|] eqn:E; [|done].
    injection Hstep as <- <-.
    destruct (law_ctor3 _ _ _ _ laws _ _ _ _ _ _ E) as (Ha & _ & Hn).
    destruct Hc as [Hc Hpos].
    apply Forall_app. split; [done|]. apply Forall_singleton.
    assert (hs_data s <> 0) by (eapply Hnonnull; [done|lia]).
    unfold null_iff_empty. rewrite Hn, <- Hc. tauto.
  - destruct (law_ctor _ _ _ _ laws tr) as (s & E & Hd & Hn).
    unfold bind in Hstep. rewrite E in Hstep. injection Hstep as <- <-.
    apply Forall_app. split; [done|]. apply Forall_singleton. by split.
  - destruct (law_ctor_skip _ _ _ _ laws without_unaligned_array_assert tr)
      as (s & E & Hd & Hn).
    unfold bind in Hstep. rewrite E in Hstep. injection Hstep as <- <-.
    apply Forall_app. split; [done|]. apply Forall_singleton. by split.
  - destruct (pool !! i) as [s|] eqn:Hi; [|done].
    destruct Hc as [Hc Hpos]. unfold bind in Hstep.
    pose proof (proj1 (Forall_lookup _ _) Hinv _ _ Hi) as Hs.
    destruct (hs_resize n r c s tr) as [[s' tr1]|] eqn:E; [|done].
    injection Hstep as <- <-.
    apply Forall_insert; [done|]. unfold null_iff_empty in *.
    destruct (decide (n = element_count s)) as [Hsame|Hdiff].
    + destruct (law_resize_same _ _ _ _ laws n r c s tr Hsame) as (s2 & E2 & Hd & Hn).
      rewrite E in E2. injection E2 as <- _. rewrite Hd, Hn, <- Hc, Hsame. done.
    + destruct (decide (n = 0)) as [Hz|Hnz].
      * destruct (law_resize_zero _ _ _ _ laws n r c s tr Hdiff Hz) as (s2 & E2 & Hd & Hn).
        rewrite E in E2. injection E2 as <- _. rewrite Hd, Hn, <- Hc. done.
      * destruct (law_resize_new _ _ _ _ laws _ _ _ _ _ _ _ Hdiff Hnz E) as (Ha & _ & Hn).
        assert (hs_data s' <> 0) by (eapply Hnonnull; [done|lia]).
        rewrite Hn, <- Hc. tauto.
  - destruct (pool !! i) as [a|] eqn:Hi; [|done].
    destruct (pool !! j) as [b|] eqn:Hj; [|done].
    pose proof (proj1 (Forall_lookup _ _) Hinv _ _ Hi) as Ha.
    pose proof (proj1 (Forall_lookup _ _) Hinv _ _ Hj) as Hb.
    destruct (law_swap _ _ _ _ laws a b) as (Ha1 & Ha2 & Hb1 & Hb2).
    destruct (hs_swap a b) as [a' b']. cbn in *. injection Hstep as <- <-.
    unfold null_iff_empty in *.
    apply Forall_insert; [apply Forall_insert; [done|]|].
    + by rewrite Ha1, Ha2.
    + by rewrite Hb1, Hb2.
  - destruct (pool !! i) as [s|] eqn:Hi; [|done].
    unfold bind in Hstep. rewrite (law_dtor _ _ _ _ laws s tr) in Hstep.
    injection Hstep as <- <-. by apply Forall_delete.
Qed.

Lemma run_null_iff_empty (ops : list op) (pool pool' : list S) (tr tr' : trace) :
  Forall null_iff_empty pool ->
  Forall (consistent count) ops -> Forall constructs_nonempty ops ->
  run ops pool tr = Some (pool', tr') ->
  Forall null_iff_empty pool'.
Proof.
  revert pool tr. induction ops as [|o ops IH]; intros pool tr Hinv Hc Hne Hrun;
    cbn in Hrun.
  - by injection Hrun as <- <-.
  - apply Forall_cons in Hc as [Ho Hc]. apply Forall_cons in Hne as [Hno Hne].
    unfold bind in Hrun.
    destruct (step o pool tr) as [[pool1 tr1]|] eqn:E; [|done].
    eapply IH; [|done..]. by eapply step_null_iff_empty.
Qed.

End NullIffEmpty.

(** ** The allocator of the examples *)

Lemma top_snoc (tr : trace) (e : event) : top (tr ++ [e]) = top_of (top tr) e.
Proof. unfold top. by rewrite foldl_app. Qed.

Lemma blocks_below_top (tr : trace) (p n : Z) :
  blocks tr !! p = Some n -> p <= top tr.
Proof.
  revert p n. induction tr as [|e tr IH] using rev_ind; intros p n.
  - unfold blocks. cbn. by rewrite lookup_empty.
  - rewrite blocks_snoc, top_snoc. destruct e as [al m q | al q m]; cbn.
    + intros [[-> ->] | [Hne Hp]]%lookup_insert_Some; [lia|].
      specialize (IH _ _ Hp). lia.
    + intros [Hne Hp]%lookup_delete_Some. eauto.
Qed.

Lemma top_nonneg (tr : trace) : 0 <= top tr.
Proof.
  induction tr as [|e tr IH] using rev_ind; [done|].
  rewrite top_snoc. destruct e; cbn; lia.
Qed.

Lemma bump_above_top (tr : trace) : top tr < 16 * (top tr / 16) + 16.
Proof. pose proof (Z.mod_pos_bound (top tr) 16). pose proof (Z.div_mod (top tr) 16). lia. Qed.

Lemma bump_nonnull : alloc_nonnull bump.
Proof.
  intros tr al n p [= <-] _. pose proof (top_nonneg tr). pose proof (bump_above_top tr). lia.
Qed.

Lemma bump_fresh : alloc_fresh bump.
Proof.
  intros tr al n p [= <-] _.
  destruct (blocks tr !! _) as [m|] eqn:E; [|done].
  apply blocks_below_top in E. pose proof (bump_above_top tr). lia.
Qed.

(** ** [resize] of the heap-backed classes *)

Lemma Storage_D_D_D_resize_cases (alloc : allocator) (DontAlign _Options : Z)
    (size rows cols : Z) (s : Storage_D_D_D.ei_matrix_storage) (tr : trace) :
  let old := int_mul (Storage_D_D_D.rows s) (Storage_D_D_D.cols s) in
  let al := Storage_D_D_D.Align DontAlign _Options in
  let released := tr ++ [EvDelete al (Storage_D_D_D.data s) old] in
  let mk p := {| Storage_D_D_D.m_data := p; Storage_D_D_D.m_rows := rows;
                 Storage_D_D_D.m_cols := cols |} in
  (size = old ->
     Storage_D_D_D.resize alloc DontAlign _Options size rows cols s tr
     = Some (mk (Storage_D_D_D.data s), tr)) /\
  (size <> old -> size = 0 ->
     Storage_D_D_D.resize alloc DontAlign _Options size rows cols s tr
     = Some (mk 0, released)) /\
  (size <> old -> size <> 0 ->
     Storage_D_D_D.resize alloc DontAlign _Options size rows cols s tr
     = match alloc released al size with
       | Some p => Some (mk p, released ++ [EvNew al size p])
       | None => None
       end).
Proof.
  cbn zeta. unfold Storage_D_D_D.resize, Storage_D_D_D.rows, Storage_D_D_D.cols,
    Storage_D_D_D.data.
  destruct (Z.eqb_spec size (int_mul (Storage_D_D_D.m_rows s) (Storage_D_D_D.m_cols s)));
    cbn; (split; [|split]); try done.
  - intros _ ->. reflexivity.
  - intros _ Hnz. destruct (Z.eqb_spec size 0); [done|]. cbn. unfold_M.
    by destruct (alloc _ _ size).
Qed.

Lemma Storage_D_R_D_resize_cases (alloc : allocator) (DontAlign _Rows _Options : Z)
    (size rows cols : Z) (s : Storage_D_R_D.ei_matrix_storage) (tr : trace) :
  let old := int_mul (Storage_D_R_D.rows _Rows) (Storage_D_R_D.cols s) in
  let al := Storage_D_R_D.Align DontAlign _Options in
  let released := tr ++ [EvDelete al (Storage_D_R_D.data s) old] in
  let mk p := {| Storage_D_R_D.m_data := p; Storage_D_R_D.m_cols := cols |} in
  (size = old ->
     Storage_D_R_D.resize alloc DontAlign _Rows _Options size rows cols s tr
     = Some (mk (Storage_D_R_D.data s), tr)) /\
  (size <> old -> size = 0 ->
     Storage_D_R_D.resize alloc DontAlign _Rows _Options size rows cols s tr
     = Some (mk 0, released)) /\
  (size <> old -> size <> 0 ->
     Storage_D_R_D.resize alloc DontAlign _Rows _Options size rows cols s tr
     = match alloc released al size with
       | Some p => Some (mk p, released ++ [EvNew al size p])
       | None => None
       end).
Proof.
  cbn zeta. unfold Storage_D_R_D.resize, Storage_D_R_D.rows, Storage_D_R_D.cols,
    Storage_D_R_D.data.
  destruct (Z.eqb_spec size (int_mul _Rows (Storage_D_R_D.m_cols s)));
    cbn; (split; [|split]); try done.
  - intros _ ->. reflexivity.
  - intros _ Hnz. destruct (Z.eqb_spec size 0); [done|]. cbn. unfold_M.
    by destruct (alloc _ _ size).
Qed.

Lemma Storage_D_D_C_resize_cases (alloc : allocator) (DontAlign _Cols _Options : Z)
    (size rows cols : Z) (s : Storage_D_D_C.ei_matrix_storage) (tr : trace) :
  let old := int_mul (Storage_D_D_C.rows s) (Storage_D_D_C.cols _Cols) in
  let al := Storage_D_D_C.Align DontAlign _Options in
  let released := tr ++ [EvDelete al (Storage_D_D_C.data s) old] in
  let mk p := {| Storage_D_D_C.m_data := p; Storage_D_D_C.m_rows := rows |} in
  (size = old ->
     Storage_D_D_C.resize alloc DontAlign _Cols _Options size rows cols s tr
     = Some (mk (Storage_D_D_C.data s), tr)) /\
  (size <> old -> size = 0 ->
     Storage_D_D_C.resize alloc DontAlign _Cols _Options size rows cols s tr
     = Some (mk 0, released)) /\
  (size <> old -> size <> 0 ->
     Storage_D_D_C.resize alloc DontAlign _Cols _Options size rows cols s tr
     = match alloc released al size with
       | Some p => Some (mk p, released ++ [EvNew al size p])
       | None => None
       end).
Proof.
  cbn zeta. unfold Storage_D_D_C.resize, Storage_D_D_C.rows, Storage_D_D_C.cols,
    Storage_D_D_C.data.
  rewrite (int_mul_comm _Cols).
  destruct (Z.eqb_spec size (int_mul (Storage_D_D_C.m_rows s) _Cols));
    cbn; (split; [|split]); try done.
  - intros _ ->. reflexivity.
  - intros _ Hnz. destruct (Z.eqb_spec size 0); [done|]. cbn. unfold_M.
    by destruct (alloc _ _ size).
Qed.

(** C1.  [resize(size, rows, cols)] of each of the three heap-backed classes
    reallocates exactly when [size] differs from the product of the stored
    dimensions (the [int] product [old] that the class computes, a fixed
    dimension at its compile-time value).  When they are equal no
    collaborator call is made and
    [data()] is unchanged.  When they differ the old buffer is released with
    one [ei_conditional_aligned_delete] call, and then the pointer becomes
    null if [size] is zero, and otherwise one buffer of [size] elements is
    acquired (the call fails when the allocation does).  In every case that
    returns, the stored dynamic dimensions are the requested ones. *)
Theorem resize_reallocates_iff_count_differs
    (alloc : allocator) (DontAlign _Rows _Cols _Options size rows cols : Z) (tr : trace) :
  (forall s : Storage_D_D_D.ei_matrix_storage,
     let old := int_mul (Storage_D_D_D.rows s) (Storage_D_D_D.cols s) in
     let al := Storage_D_D_D.Align DontAlign _Options in
     let released := tr ++ [EvDelete al (Storage_D_D_D.data s) old] in
     let mk p := {| Storage_D_D_D.m_data := p; Storage_D_D_D.m_rows := rows;
                    Storage_D_D_D.m_cols := cols |} in
     (size = old ->
        Storage_D_D_D.resize alloc DontAlign _Options size rows cols s tr
        = Some (mk (Storage_D_D_D.data s), tr)) /\
     (size <> old -> size = 0 ->
        Storage_D_D_D.resize alloc DontAlign _Options size rows cols s tr
        = Some (mk 0, released)) /\
     (size <> old -> size <> 0 ->
        Storage_D_D_D.resize alloc DontAlign _Options size rows cols s tr
        = match alloc released al size with
          | Some p => Some (mk p, released ++ [EvNew al size p])
          | None => None
          end)) /\
  (forall s : Storage_D_R_D.ei_matrix_storage,
     let old := int_mul (Storage_D_R_D.rows _Rows) (Storage_D_R_D.cols s) in
     let al := Storage_D_R_D.Align DontAlign _Options in
     let released := tr ++ [EvDelete al (Storage_D_R_D.data s) old] in
     let mk p := {| Storage_D_R_D.m_data := p; Storage_D_R_D.m_cols := cols |} in
     (size = old ->
        Storage_D_R_D.resize alloc DontAlign _Rows _Options size rows cols s tr
        = Some (mk (Storage_D_R_D.data s), tr)) /\
     (size <> old -> size = 0 ->
        Storage_D_R_D.resize alloc DontAlign _Rows _Options size rows cols s tr
        = Some (mk 0, released)) /\
     (size <> old -> size <> 0 ->
        Storage_D_R_D.resize alloc DontAlign _Rows _Options size rows cols s tr
        = match alloc released al size with
          | Some p => Some (mk p, released ++ [EvNew al size p])
          | None => None
          end)) /\
  (forall s : Storage_D_D_C.ei_matrix_storage,
     let old := int_mul (Storage_D_D_C.rows s) (Storage_D_D_C.cols _Cols) in
     let al := Storage_D_D_C.Align DontAlign _Options in
     let released := tr ++ [EvDelete al (Storage_D_D_C.data s) old] in
     let mk p := {| Storage_D_D_C.m_data := p; Storage_D_D_C.m_rows := rows |} in
     (size = old ->
        Storage_D_D_C.resize alloc DontAlign _Cols _Options size rows cols s tr
        = Some (mk (Storage_D_D_C.data s), tr)) /\
     (size <> old -> size = 0 ->
        Storage_D_D_C.resize alloc DontAlign _Cols _Options size rows cols s tr
        = Some (mk 0, released)) /\
     (size <> old -> size <> 0 ->
        Storage_D_D_C.resize alloc DontAlign _Cols _Options size rows cols s tr
        = match alloc released al size with
          | Some p => Some (mk p, released ++ [EvNew al size p])
          | None => None
          end)).
Proof.
  split; [|split]; intros s.
  - apply Storage_D_D_D_resize_cases.
  - apply Storage_D_R_D_resize_cases.
  - apply Storage_D_D_C_resize_cases.
Qed.

(** C1 on a 2 x 3 matrix at address 16: the three cases of [resize]. *)
Lemma resize_reallocates_witness :
  let s := {| Storage_D_D_D.m_data := 16; Storage_D_D_D.m_rows := 2;
              Storage_D_D_D.m_cols := 3 |} in
  let tr := [EvNew true 6 16] in
  Storage_D_D_D.resize bump 2 0 6 3 2 s tr
    = Some ({| Storage_D_D_D.m_data := 16; Storage_D_D_D.m_rows := 3;
               Storage_D_D_D.m_cols := 2 |}, tr) /\
  Storage_D_D_D.resize bump 2 0 0 0 0 s tr
    = Some ({| Storage_D_D_D.m_data := 0; Storage_D_D_D.m_rows := 0;
               Storage_D_D_D.m_cols := 0 |}, tr ++ [EvDelete true 16 6]) /\
  Storage_D_D_D.resize bump 2 0 8 2 4 s tr
    = Some ({| Storage_D_D_D.m_data := 32; Storage_D_D_D.m_rows := 2;
               Storage_D_D_D.m_cols := 4 |},
            tr ++ [EvDelete true 16 6; EvNew true 8 32]).
Proof.
  intros s tr. split; [|split].
  - apply (proj1 (proj1 (resize_reallocates_iff_count_differs
                           bump 2 0 0 0 6 3 2 tr) s)).
    reflexivity.
  - apply (proj1 (proj2 (proj1 (resize_reallocates_iff_count_differs
                                  bump 2 0 0 0 0 0 0 tr) s)));
      [vm_compute; discriminate | reflexivity].
  - rewrite (proj2 (proj2 (proj1 (resize_reallocates_iff_count_differs
                                    bump 2 0 0 0 8 2 4 tr) s)));
      [reflexivity | vm_compute; discriminate | lia].
Defined.

(** ** The element count and the buffer *)

Lemma pool_elem_owns {S : Type} {HS : HeapStorage S} (alloc : allocator) (align : bool)
    (count : Z -> Z -> Z) (ops : list op) (pool : list S) (tr0 tr : trace) (s : S) :
  HeapStorageLaws HS alloc align count ->
  alloc_nonnull alloc -> alloc_fresh alloc ->
  Forall (consistent count) ops ->
  run ops [] tr0 = Some (pool, tr) ->
  s ∈ pool ->
  owns tr s.
Proof.
  intros laws Hnn Hfr Hc Hrun [i Hi]%list_elem_of_lookup.
  destruct (run_pool_inv alloc align count laws Hnn Hfr ops [] pool tr0 tr
              (pool_inv_nil tr0) Hc Hrun) as [Hown _].
  eauto.
Qed.

(** C2, as stated, fails: a [resize] that keeps the element count of a
    2 x 3 matrix and asks for 5 rows and 5 columns keeps the buffer of 6
    elements, and [rows() * cols()] is 25. *)
Lemma element_count_differs_from_buffer :
  let s := {| Storage_D_D_D.m_data := 16; Storage_D_D_D.m_rows := 5;
              Storage_D_D_D.m_cols := 5 |} in
  run (HS := Storage_D_D_D_heap bump 2 0) [Construct 6 2 3; Resize 0 6 5 5] [] []
    = Some ([s], [EvNew true 6 16]) /\
  int_mul (Storage_D_D_D.rows s) (Storage_D_D_D.cols s) = 25 /\
  allocated_with [EvNew true 6 16] (Storage_D_D_D.data s) = 6.
Proof. vm_compute. done. Qed.

(** C2, amended.  For each heap-backed class, and an allocator that gives
    no null pointer for a positive count and no buffer that is still
    allocated: after every sequence of constructions, resizes, swaps and
    destructions in which each three-argument construction and each resize
    passes as element count the non-negative product of the dimensions the
    object then has, [rows() * cols()] of every object is the number of
    elements its buffer was allocated with (zero for the null pointer). *)
Theorem element_count_is_allocated_count
    (alloc : allocator) (DontAlign _Rows _Cols _Options : Z)
    (Hnonnull : alloc_nonnull alloc) (Hfresh : alloc_fresh alloc)
    (ops : list op) (tr0 tr : trace) :
  (forall pool s,
     Forall (consistent (fun r c => int_mul r c)) ops ->
     run (HS := Storage_D_D_D_heap alloc DontAlign _Options) ops [] tr0 = Some (pool, tr) ->
     s ∈ pool ->
     int_mul (Storage_D_D_D.rows s) (Storage_D_D_D.cols s)
     = allocated_with tr (Storage_D_D_D.data s)) /\
  (forall pool s,
     Forall (consistent (fun r c => int_mul _Rows c)) ops ->
     run (HS := Storage_D_R_D_heap alloc DontAlign _Rows _Options) ops [] tr0 = Some (pool, tr) ->
     s ∈ pool ->
     int_mul (Storage_D_R_D.rows _Rows) (Storage_D_R_D.cols s)
     = allocated_with tr (Storage_D_R_D.data s)) /\
  (forall pool s,
     Forall (consistent (fun r c => int_mul r _Cols)) ops ->
     run (HS := Storage_D_D_C_heap alloc DontAlign _Cols _Options) ops [] tr0 = Some (pool, tr) ->
     s ∈ pool ->
     int_mul (Storage_D_D_C.rows s) (Storage_D_D_C.cols _Cols)
     = allocated_with tr (Storage_D_D_C.data s)).
Proof.
  split; [|split]; intros pool s Hc Hrun Hs.
  - apply (owns_allocated_with (HS := Storage_D_D_D_heap alloc DontAlign _Options)).
    eapply pool_elem_owns; eauto using Storage_D_D_D_laws.
  - apply (owns_allocated_with (HS := Storage_D_R_D_heap alloc DontAlign _Rows _Options)).
    eapply pool_elem_owns; eauto using Storage_D_R_D_laws.
  - apply (owns_allocated_with (HS := Storage_D_D_C_heap alloc DontAlign _Cols _Options)).
    eapply pool_elem_owns; eauto using Storage_D_D_C_laws.
Qed.

(** Proves [Forall (consistent count) ops] and the like on a closed list. *)
Ltac forall_ops :=
  repeat first [ apply Forall_nil_2
               | apply Forall_cons_2
               | split
               | exact I
               | reflexivity
               | lia
               | discriminate ].

(** C2, amended, on a program of eight operations. *)
Lemma element_count_is_allocated_count_witness :
  let ops := [Construct 6 2 3; Resize 0 6 3 2; ConstructDefault; Swap 0 1;
              Resize 1 0 0 0; Construct 4 2 2; Resize 0 8 2 4; Destroy 1] in
  alloc_nonnull bump /\ alloc_fresh bump /\
  Forall (consistent (fun r c => int_mul r c)) ops /\
  exists pool tr,
    run (HS := Storage_D_D_D_heap bump 2 0) ops [] [] = Some (pool, tr) /\
    forall s, s ∈ pool ->
      int_mul (Storage_D_D_D.rows s) (Storage_D_D_D.cols s)
      = allocated_with tr (Storage_D_D_D.data s).
Proof.
  intros ops.
  assert (Forall (consistent (fun r c => int_mul r c)) ops) as Hc by (subst ops; forall_ops).
  split; [exact bump_nonnull|]. split; [exact bump_fresh|]. split; [exact Hc|].
  eexists _, _. split; [vm_compute; reflexivity|].
  intros s Hs.
  eapply (proj1 (element_count_is_allocated_count bump 2 0 0 0
                   bump_nonnull bump_fresh ops [] _)); [exact Hc| |exact Hs].
  vm_compute. reflexivity.
Defined.

(** ** The null pointer and the empty matrix *)

(** C3, as stated, fails: constructed with 6 elements, 0 rows and 0
    columns, the object holds a buffer while [rows() * cols()] is zero.  So
    it does when constructed with 0 elements, 0 rows and 0 columns, with an
    allocator that gives a buffer for no element. *)
Lemma null_pointer_iff_empty_fails :
  let s := {| Storage_D_D_D.m_data := 16; Storage_D_D_D.m_rows := 0;
              Storage_D_D_D.m_cols := 0 |} in
  Storage_D_D_D.ctor3 bump 2 0 6 0 0 [] = Some (s, [EvNew true 6 16]) /\
  Storage_D_D_D.ctor3 bump 2 0 0 0 0 [] = Some (s, [EvNew true 0 16]) /\
  int_mul (Storage_D_D_D.rows s) (Storage_D_D_D.cols s) = 0 /\
  Storage_D_D_D.data s <> 0.
Proof. vm_compute. split; [done|]. split; [done|]. split; [done|]. discriminate. Qed.

Lemma pool_elem_null_iff_empty {S : Type} {HS : HeapStorage S} (alloc : allocator)
    (align : bool) (count : Z -> Z -> Z) (ops : list op) (pool : list S)
    (tr0 tr : trace) (s : S) :
  HeapStorageLaws HS alloc align count ->
  alloc_nonnull alloc ->
  Forall (consistent count) ops -> Forall constructs_nonempty ops ->
  run ops [] tr0 = Some (pool, tr) ->
  s ∈ pool ->
  hs_data s = 0 <-> element_count s = 0.
Proof.
  intros laws Hnn Hc Hne Hrun Hs.
  pose proof (run_null_iff_empty alloc align count laws Hnn ops [] pool tr0 tr
                (Forall_nil_2 _) Hc Hne Hrun) as Hall.
  by apply (proj1 (Forall_forall _ _) Hall).
Qed.

(** C3, amended.  For each heap-backed class, and an allocator that gives
    no null pointer for a positive count: after every sequence of
    constructions (default, skip-check, or three-argument with a non-zero
    element count), resizes, swaps and destructions in which each
    three-argument construction and each resize passes as element count the
    non-negative product of the dimensions the object then has, [data()] of
    every object is null exactly when its [rows() * cols()] is zero. *)
Theorem null_pointer_iff_empty
    (alloc : allocator) (DontAlign _Rows _Cols _Options : Z)
    (Hnonnull : alloc_nonnull alloc)
    (ops : list op) (Hnonempty : Forall constructs_nonempty ops) (tr0 tr : trace) :
  (forall pool s,
     Forall (consistent (fun r c => int_mul r c)) ops ->
     run (HS := Storage_D_D_D_heap alloc DontAlign _Options) ops [] tr0 = Some (pool, tr) ->
     s ∈ pool ->
     Storage_D_D_D.data s = 0
     <-> int_mul (Storage_D_D_D.rows s) (Storage_D_D_D.cols s) = 0) /\
  (forall pool s,
     Forall (consistent (fun r c => int_mul _Rows c)) ops ->
     run (HS := Storage_D_R_D_heap alloc DontAlign _Rows _Options) ops [] tr0 = Some (pool, tr) ->
     s ∈ pool ->
     Storage_D_R_D.data s = 0
     <-> int_mul (Storage_D_R_D.rows _Rows) (Storage_D_R_D.cols s) = 0) /\
  (forall pool s,
     Forall (consistent (fun r c => int_mul r _Cols)) ops ->
     run (HS := Storage_D_D_C_heap alloc DontAlign _Cols _Options) ops [] tr0 = Some (pool, tr) ->
     s ∈ pool ->
     Storage_D_D_C.data s = 0
     <-> int_mul (Storage_D_D_C.rows s) (Storage_D_D_C.cols _Cols) = 0).
Proof.
  split; [|split]; intros pool s Hc Hrun Hs.
  - eapply (pool_elem_null_iff_empty (HS := Storage_D_D_D_heap alloc DontAlign _Options));
      eauto using Storage_D_D_D_laws.
  - eapply (pool_elem_null_iff_empty (HS := Storage_D_R_D_heap alloc DontAlign _Rows _Options));
      eauto using Storage_D_R_D_laws.
  - eapply (pool_elem_null_iff_empty (HS := Storage_D_D_C_heap alloc DontAlign _Cols _Options));
      eauto using Storage_D_D_C_laws.
Qed.

(** C3, amended, on a program of eight operations. *)
Lemma null_pointer_iff_empty_witness :
  let ops := [Construct 6 2 3; Resize 0 6 3 2; ConstructDefault; Swap 0 1;
              Resize 1 0 0 0; ConstructSkip; Resize 2 8 2 4; Destroy 0] in
  alloc_nonnull bump /\ Forall constructs_nonempty ops /\
  Forall (consistent (fun r c => int_mul r c)) ops /\
  exists pool tr,
    run (HS := Storage_D_D_D_heap bump 2 0) ops [] [] = Some (pool, tr) /\
    forall s, s ∈ pool ->
      Storage_D_D_D.data s = 0
      <-> int_mul (Storage_D_D_D.rows s) (Storage_D_D_D.cols s) = 0.
Proof.
  intros ops.
  assert (Forall (consistent (fun r c => int_mul r c)) ops) as Hc by (subst ops; forall_ops).
  assert (Forall constructs_nonempty ops) as Hne by (subst ops; forall_ops).
  split; [exact bump_nonnull|]. split; [exact Hne|]. split; [exact Hc|].
  eexists _, _. split; [vm_compute; reflexivity|].
  intros s Hs.
  eapply (proj1 (null_pointer_iff_empty bump 2 0 0 0 bump_nonnull ops Hne [] _));
    [exact Hc| |exact Hs].
  vm_compute. reflexivity.
Defined.

(** ** Destruction *)

Lemma blocks_lookup_new (tr : trace) (p n : Z) :
  blocks tr !! p = Some n -> exists al, EvNew al n p ∈ tr.
Proof.
  revert p n. induction tr as [|e tr IH] using rev_ind; intros p n.
  - unfold blocks. cbn. by rewrite lookup_empty.
  - rewrite blocks_snoc. destruct e as [al m q | al q m]; cbn.
    + intros [[-> ->] | [Hne Hp]]%lookup_insert_Some.
      * exists al. apply elem_of_app. right. by apply list_elem_of_singleton.
      * destruct (IH _ _ Hp) as [al' Hin]. exists al'. apply elem_of_app. by left.
    + intros [Hne Hp]%lookup_delete_Some.
      destruct (IH _ _ Hp) as [al' Hin]. exists al'. apply elem_of_app. by left.
Qed.

Section OneDiscipline.
Context {S : Type} {HS : HeapStorage S}.
Variable alloc : allocator.
Variable align : bool.
Variable count : Z -> Z -> Z.
Hypothesis laws : HeapStorageLaws HS alloc align count.

Lemma step_events_align (o : op) (pool pool' : list S) (tr tr' : trace) :
  Forall (fun e => event_align e = align) tr ->
  step o pool tr = Some (pool', tr') ->
  Forall (fun e => event_align e = align) tr'.
Proof.
  intros Hal Hstep. destruct o as [n r c | | | i n r c | i j | i]; cbn in Hstep.
  - unfold bind in Hstep. destruct (hs_ctor3 n r c tr) as [[s tr1]|] eqn:E; [|done].
    injection Hstep as <- <-.
    destruct (law_ctor3 _ _ _ _ laws _ _ _ _ _ _ E) as (_ & -> & _).
    apply Forall_app. split; [done|]. by apply Forall_singleton.
  - destruct (law_ctor _ _ _ _ laws tr) as (s & E & _).
    unfold bind in Hstep. rewrite E in Hstep. by injection Hstep as <- <-.
  - destruct (law_ctor_skip _ _ _ _ laws without_unaligned_array_assert tr) as (s & E & _).
    unfold bind in Hstep. rewrite E in Hstep. by injection Hstep as <- <-.
  - destruct (pool !! i) as [s|] eqn:Hi; [|done]. unfold bind in Hstep.
    destruct (hs_resize n r c s tr) as [[s' tr1]|] eqn:E; [|done].
    injection Hstep as <- <-.
    destruct (decide (n = element_count s)) as [Hsame|Hdiff].
    + destruct (law_resize_same _ _ _ _ laws n r c s tr Hsame) as (s2 & E2 & _).
      rewrite E in E2. by injection E2 as _ <-.
    + destruct (decide (n = 0)) as [Hz|Hnz].
      * destruct (law_resize_zero _ _ _ _ laws n r c s tr Hdiff Hz) as (s2 & E2 & _).
        rewrite E in E2. injection E2 as _ ->.
        apply Forall_app. split; [done|]. by apply Forall_singleton.
      * destruct (law_resize_new _ _ _ _ laws _ _ _ _ _ _ _ Hdiff Hnz E) as (_ & -> & _).
        apply Forall_app. split; [done|]. by repeat constructor.
  - destruct (pool !! i) as [a|]; [|done]. destruct (pool !! j) as [b|]; [|done].
    destruct (hs_swap a b) as [a' b']. by injection Hstep as <- <-.
  - destruct (pool !! i) as [s|]; [|done].
    unfold bind in Hstep. rewrite (law_dtor _ _ _ _ laws s tr) in Hstep.
    injection Hstep as <- <-.
    apply Forall_app. split; [done|]. by apply Forall_singleton.
Qed.

Lemma run_events_align (ops : list op) (pool pool' : list S) (tr tr' : trace) :
  Forall (fun e => event_align e = align) tr ->
  run ops pool tr = Some (pool', tr') ->
  Forall (fun e => event_align e = align) tr'.
Proof.
  revert pool tr. induction ops as [|o ops IH]; intros pool tr Hal Hrun; cbn in Hrun.
  - by injection Hrun as <- <-.
  - unfold bind in Hrun. destruct (step o pool tr) as [[pool1 tr1]|] eqn:E; [|done].
    eapply IH; [|done]. by eapply step_events_align.
Qed.

(** What the destructor of an object of a pool releases. *)
Lemma pool_elem_dtor (ops : list op) (pool : list S) (tr : trace) (s : S) :
  alloc_nonnull alloc -> alloc_fresh alloc ->
  Forall (consistent count) ops ->
  run ops [] [] = Some (pool, tr) ->
  s ∈ pool ->
  hs_dtor s tr = Some (tt, tr ++ [EvDelete align (hs_data s) (element_count s)]) /\
  element_count s = allocated_with tr (hs_data s) /\
  (hs_data s <> 0 -> EvNew align (element_count s) (hs_data s) ∈ tr).
Proof.
  intros Hnn Hfr Hc Hrun Hs.
  pose proof (pool_elem_owns alloc align count ops pool [] tr s laws Hnn Hfr Hc Hrun Hs)
    as Hown.
  split; [apply (law_dtor _ _ _ _ laws)|]. split; [by apply owns_allocated_with|].
  intros Hd. destruct Hown as [_ Hb].
  destruct (blocks_lookup_new _ _ _ (Hb Hd)) as [al Hin].
  pose proof (run_events_align ops [] pool [] tr (Forall_nil_2 _) Hrun) as Hal.
  pose proof (proj1 (Forall_forall _ _) Hal _ Hin) as Hal'. cbn in Hal'. by subst al.
Qed.

End OneDiscipline.

(** C7, as stated, fails: constructed with 6 elements, 2 rows and 2
    columns, the object holds a buffer of 6 elements and its destructor
    passes 4. *)
Lemma destructor_passes_the_shape_not_the_buffer :
  let s := {| Storage_D_D_D.m_data := 16; Storage_D_D_D.m_rows := 2;
              Storage_D_D_D.m_cols := 2 |} in
  let tr := [EvNew true 6 16] in
  run (HS := Storage_D_D_D_heap bump 2 0) [Construct 6 2 2] [] [] = Some ([s], tr) /\
  allocated_with tr (Storage_D_D_D.data s) = 6 /\
  Storage_D_D_D.dtor 2 0 s tr = Some (tt, tr ++ [EvDelete true 16 4]).
Proof. vm_compute. done. Qed.

(** C7, amended.  The destructor of each heap-backed class makes exactly
    one collaborator call: [ei_conditional_aligned_delete], with the [Align]
    argument [(_Options&DontAlign)==0] that the acquiring calls of the class
    carry, on the object's buffer, with [N = rows() * cols()] as the element
    count.  For an object reached by operations each of which passes as
    element count the non-negative product of the dimensions the object then
    has, with an allocator that gives no null pointer for a positive count
    and no buffer that is still allocated, the count the destructor passes
    is the one the buffer was allocated with, by a call of the same
    [Align]. *)
Theorem destructor_releases_its_buffer
    (alloc : allocator) (DontAlign _Rows _Cols _Options : Z) :
  (let al := Storage_D_D_D.Align DontAlign _Options in
   let N s := int_mul (Storage_D_D_D.rows s) (Storage_D_D_D.cols s) in
   (forall s tr,
      Storage_D_D_D.dtor DontAlign _Options s tr
      = Some (tt, tr ++ [EvDelete al (Storage_D_D_D.data s) (N s)])) /\
   (forall n r c tr s tr',
      Storage_D_D_D.ctor3 alloc DontAlign _Options n r c tr = Some (s, tr') ->
      tr' = tr ++ [EvNew al n (Storage_D_D_D.data s)]) /\
   (alloc_nonnull alloc -> alloc_fresh alloc ->
    forall ops pool tr s,
      Forall (consistent (fun r c => int_mul r c)) ops ->
      run (HS := Storage_D_D_D_heap alloc DontAlign _Options) ops [] [] = Some (pool, tr) ->
      s ∈ pool ->
      Storage_D_D_D.dtor DontAlign _Options s tr
      = Some (tt, tr ++ [EvDelete al (Storage_D_D_D.data s)
                           (allocated_with tr (Storage_D_D_D.data s))]) /\
      (Storage_D_D_D.data s <> 0 ->
       EvNew al (allocated_with tr (Storage_D_D_D.data s)) (Storage_D_D_D.data s) ∈ tr))) /\
  (let al := Storage_D_R_D.Align DontAlign _Options in
   let N s := int_mul (Storage_D_R_D.rows _Rows) (Storage_D_R_D.cols s) in
   (forall s tr,
      Storage_D_R_D.dtor DontAlign _Rows _Options s tr
      = Some (tt, tr ++ [EvDelete al (Storage_D_R_D.data s) (N s)])) /\
   (forall n r c tr s tr',
      Storage_D_R_D.ctor3 alloc DontAlign _Options n r c tr = Some (s, tr') ->
      tr' = tr ++ [EvNew al n (Storage_D_R_D.data s)]) /\
   (alloc_nonnull alloc -> alloc_fresh alloc ->
    forall ops pool tr s,
      Forall (consistent (fun r c => int_mul _Rows c)) ops ->
      run (HS := Storage_D_R_D_heap alloc DontAlign _Rows _Options) ops [] []
        = Some (pool, tr) ->
      s ∈ pool ->
      Storage_D_R_D.dtor DontAlign _Rows _Options s tr
      = Some (tt, tr ++ [EvDelete al (Storage_D_R_D.data s)
                           (allocated_with tr (Storage_D_R_D.data s))]) /\
      (Storage_D_R_D.data s <> 0 ->
       EvNew al (allocated_with tr (Storage_D_R_D.data s)) (Storage_D_R_D.data s) ∈ tr))) /\
  (let al := Storage_D_D_C.Align DontAlign _Options in
   let N s := int_mul (Storage_D_D_C.rows s) (Storage_D_D_C.cols _Cols) in
   (forall s tr,
      Storage_D_D_C.dtor DontAlign _Cols _Options s tr
      = Some (tt, tr ++ [EvDelete al (Storage_D_D_C.data s) (N s)])) /\
   (forall n r c tr s tr',
      Storage_D_D_C.ctor3 alloc DontAlign _Options n r c tr = Some (s, tr') ->
      tr' = tr ++ [EvNew al n (Storage_D_D_C.data s)]) /\
   (alloc_nonnull alloc -> alloc_fresh alloc ->
    forall ops pool tr s,
      Forall (consistent (fun r c => int_mul r _Cols)) ops ->
      run (HS := Storage_D_D_C_heap alloc DontAlign _Cols _Options) ops [] []
        = Some (pool, tr) ->
      s ∈ pool ->
      Storage_D_D_C.dtor DontAlign _Cols _Options s tr
      = Some (tt, tr ++ [EvDelete al (Storage_D_D_C.data s)
                           (allocated_with tr (Storage_D_D_C.data s))]) /\
      (Storage_D_D_C.data s <> 0 ->
       EvNew al (allocated_with tr (Storage_D_D_C.data s)) (Storage_D_D_C.data s) ∈ tr))).
Proof.
  split; [|split]; cbn zeta.
  - pose proof (Storage_D_D_D_laws alloc DontAlign _Options) as laws.
    split; [exact (law_dtor _ _ _ _ laws)|]. split.
    + intros n r c tr s tr' E. by destruct (law_ctor3 _ _ _ _ laws _ _ _ _ _ _ E) as (_ & -> & _).
    + intros Hnn Hfr ops pool tr s Hc Hrun Hs.
      destruct (pool_elem_dtor alloc _ _ laws ops pool tr s Hnn Hfr Hc Hrun Hs)
        as (Hd & Hn & Hin).
      unfold element_count in Hn. cbn in Hn. rewrite <- Hn.
      split; [exact Hd | exact Hin].
  - pose proof (Storage_D_R_D_laws alloc DontAlign _Rows _Options) as laws.
    split; [exact (law_dtor _ _ _ _ laws)|]. split.
    + intros n r c tr s tr' E. by destruct (law_ctor3 _ _ _ _ laws _ _ _ _ _ _ E) as (_ & -> & _).
    + intros Hnn Hfr ops pool tr s Hc Hrun Hs.
      destruct (pool_elem_dtor alloc _ _ laws ops pool tr s Hnn Hfr Hc Hrun Hs)
        as (Hd & Hn & Hin).
      unfold element_count in Hn. cbn in Hn. rewrite <- Hn.
      split; [exact Hd | exact Hin].
  - pose proof (Storage_D_D_C_laws alloc DontAlign _Cols _Options) as laws.
    split; [exact (law_dtor _ _ _ _ laws)|]. split.
    + intros n r c tr s tr' E. by destruct (law_ctor3 _ _ _ _ laws _ _ _ _ _ _ E) as (_ & -> & _).
    + intros Hnn Hfr ops pool tr s Hc Hrun Hs.
      destruct (pool_elem_dtor alloc _ _ laws ops pool tr s Hnn Hfr Hc Hrun Hs)
        as (Hd & Hn & Hin).
      unfold element_count in Hn. cbn in Hn. rewrite <- Hn.
      split; [exact Hd | exact Hin].
Qed.

(** C7, amended, on a matrix constructed 2 x 3 and resized to 3 x 2 and to
    2 x 4. *)
Lemma destructor_releases_its_buffer_witness :
  let ops := [Construct 6 2 3; Resize 0 6 3 2; Resize 0 8 2 4] in
  let s := {| Storage_D_D_D.m_data := 32; Storage_D_D_D.m_rows := 2;
              Storage_D_D_D.m_cols := 4 |} in
  let tr := [EvNew true 6 16; EvDelete true 16 6; EvNew true 8 32] in
  alloc_nonnull bump /\ alloc_fresh bump /\
  Forall (consistent (fun r c => int_mul r c)) ops /\
  run (HS := Storage_D_D_D_heap bump 2 0) ops [] [] = Some ([s], tr) /\
  Storage_D_D_D.dtor 2 0 s tr = Some (tt, tr ++ [EvDelete true 32 8]) /\
  8 = allocated_with tr 32 /\
  EvNew true 8 32 ∈ tr.
Proof.
  intros ops s tr.
  assert (Forall (consistent (fun r c => int_mul r c)) ops) as Hc by (subst ops; forall_ops).
  assert (run (HS := Storage_D_D_D_heap bump 2 0) ops [] [] = Some ([s], tr)) as Hrun
    by (vm_compute; reflexivity).
  assert (s ∈ [s]) as Hs by (apply list_elem_of_singleton; reflexivity).
  destruct (destructor_releases_its_buffer bump 2 0 0 0) as [(Hd & _ & Hp) _].
  destruct (Hp bump_nonnull bump_fresh ops [s] tr s Hc Hrun Hs) as [Hn Hin].
  split; [exact bump_nonnull|]. split; [exact bump_fresh|]. split; [exact Hc|].
  split; [exact Hrun|]. split; [exact Hn|]. split; [reflexivity|].
  apply Hin. discriminate.
Defined.

(** ** Construction without arguments *)

Lemma ei_matrix_array_ctor_None {T : Type} (cfg : build) (al : Z) (pl : placement T) :
  ei_matrix_array_ctor cfg al pl = None
  <-> al = 16 /\ EIGEN_MAKE_UNALIGNED_ARRAY_ASSERT cfg (place_addr pl) 15 = None.
Proof.
  unfold ei_matrix_array_ctor. destruct (Z.eqb_spec al 16) as [->|Hne].
  - destruct (EIGEN_MAKE_UNALIGNED_ARRAY_ASSERT cfg (place_addr pl) 15) as [u|].
    + split; [discriminate | intros [_ ?]; discriminate].
    + split; done.
  - split; [discriminate | intros [? _]; done].
Qed.

Lemma ei_matrix_array_ctor_Some {T : Type} (cfg : build) (al : Z) (pl : placement T)
    (a : ei_matrix_array T) :
  ei_matrix_array_ctor cfg al pl = Some a -> a = array_at pl.
Proof.
  unfold ei_matrix_array_ctor. destruct (al =? 16); [|congruence].
  destruct (EIGEN_MAKE_UNALIGNED_ARRAY_ASSERT cfg (place_addr pl) 15); congruence.
Qed.

(** Splits the construction of a class that holds an [ei_matrix_array]:
    either the assertion failed, or the class wraps the array. *)
Ltac ctor_fails :=
  rewrite <- ei_matrix_array_ctor_None;
  match goal with
  | |- context [ei_matrix_array_ctor ?cfg ?al ?pl] =>
      destruct (ei_matrix_array_ctor cfg al pl); cbn; naive_solver
  end.

Ltac ctor_succeeds :=
  match goal with
  | |- context [ei_matrix_array_ctor ?cfg ?al ?pl] =>
      let E := fresh "E" in
      destruct (ei_matrix_array_ctor cfg al pl) eqn:E; cbn; [|done];
      apply ei_matrix_array_ctor_Some in E; subst;
      let H := fresh "H" in intros H; injection H as <-; cbn
  end.

(** C9.  The constructor without arguments of each class with a dynamic
    dimension sets every stored dimension to 0, so [rows() * cols()] is 0.
    Of a heap-backed class it makes no collaborator call and sets the pointer
    to null.  Of a class with an inline array it calls nothing but the
    alignment assertion, and fails only when that does. *)
Theorem default_construction_is_empty
    (T : Type) (alloc : allocator) (cfg : build)
    (DontAlign sizeof_T Size _Rows _Cols _Options : Z) :
  let al := Alignment DontAlign sizeof_T Size _Options in
  let asserted (pl : placement T) :=
    al = 16 /\ EIGEN_MAKE_UNALIGNED_ARRAY_ASSERT cfg (place_addr pl) 15 = None in
  (forall pl,
     (Storage_S_D_D.ctor T DontAlign sizeof_T cfg Size _Options pl = None <-> asserted pl) /\
     forall s, Storage_S_D_D.ctor T DontAlign sizeof_T cfg Size _Options pl = Some s ->
       Storage_S_D_D.m_rows T s = 0 /\ Storage_S_D_D.m_cols T s = 0 /\
       int_mul (Storage_S_D_D.rows T s) (Storage_S_D_D.cols T s) = 0) /\
  (forall pl,
     (Storage_S_D_C.ctor T DontAlign sizeof_T cfg Size _Options pl = None <-> asserted pl) /\
     forall s, Storage_S_D_C.ctor T DontAlign sizeof_T cfg Size _Options pl = Some s ->
       Storage_S_D_C.m_rows T s = 0 /\
       int_mul (Storage_S_D_C.rows T s) (Storage_S_D_C.cols T _Cols s) = 0) /\
  (forall pl,
     (Storage_S_R_D.ctor T DontAlign sizeof_T cfg Size _Options pl = None <-> asserted pl) /\
     forall s, Storage_S_R_D.ctor T DontAlign sizeof_T cfg Size _Options pl = Some s ->
       Storage_S_R_D.m_cols T s = 0 /\
       int_mul (Storage_S_R_D.rows T _Rows s) (Storage_S_R_D.cols T s) = 0) /\
  (forall tr,
     let s := {| Storage_D_D_D.m_data := 0; Storage_D_D_D.m_rows := 0;
                 Storage_D_D_D.m_cols := 0 |} in
     Storage_D_D_D.ctor tr = Some (s, tr) /\
     Storage_D_D_D.data s = 0 /\
     int_mul (Storage_D_D_D.rows s) (Storage_D_D_D.cols s) = 0) /\
  (forall tr,
     let s := {| Storage_D_R_D.m_data := 0; Storage_D_R_D.m_cols := 0 |} in
     Storage_D_R_D.ctor tr = Some (s, tr) /\
     Storage_D_R_D.data s = 0 /\
     int_mul (Storage_D_R_D.rows _Rows) (Storage_D_R_D.cols s) = 0) /\
  (forall tr,
     let s := {| Storage_D_D_C.m_data := 0; Storage_D_D_C.m_rows := 0 |} in
     Storage_D_D_C.ctor tr = Some (s, tr) /\
     Storage_D_D_C.data s = 0 /\
     int_mul (Storage_D_D_C.rows s) (Storage_D_D_C.cols _Cols) = 0).
Proof.
  cbn zeta. split; [|split; [|split; [|split; [|split]]]].
  - intros pl. unfold Storage_S_D_D.ctor. split; [ctor_fails|].
    intros s. ctor_succeeds. split; [done|]. split; [done|]. apply int_mul_0_l.
  - intros pl. unfold Storage_S_D_C.ctor. split; [ctor_fails|].
    intros s. ctor_succeeds. split; [done|]. apply int_mul_0_l.
  - intros pl. unfold Storage_S_R_D.ctor. split; [ctor_fails|].
    intros s. ctor_succeeds. split; [done|]. apply int_mul_0_r.
  - intros tr. split; [reflexivity|]. split; [reflexivity|]. apply int_mul_0_l.
  - intros tr. split; [reflexivity|]. split; [reflexivity|]. apply int_mul_0_r.
  - intros tr. split; [reflexivity|]. split; [reflexivity|]. apply int_mul_0_l.
Qed.

(** C9 on four 4-byte elements placed at address 32. *)
Lemma default_construction_is_empty_witness :
  let cfg := {| EIGEN_DISABLE_UNALIGNED_ARRAY_ASSERT := false; EIGEN_NO_DEBUG := false |} in
  let pl := {| place_addr := 32; place_elems := [7; 7; 7; 7] |} in
  let s := {| Storage_S_D_D.m_data := array_at pl; Storage_S_D_D.m_rows := 0;
              Storage_S_D_D.m_cols := 0 |} in
  Storage_S_D_D.ctor Z 2 4 cfg 4 0 pl = Some s /\
  Storage_S_D_D.m_rows Z s = 0 /\ Storage_S_D_D.m_cols Z s = 0 /\
  int_mul (Storage_S_D_D.rows Z s) (Storage_S_D_D.cols Z s) = 0.
Proof.
  intros cfg pl s. split; [reflexivity|].
  destruct (default_construction_is_empty Z bump cfg 2 4 4 0 0 0) as [H _].
  destruct (H pl) as [_ Hs]. apply Hs. reflexivity.
Defined.

(** C10.  The skip-check constructor of each heap-backed class takes only
    the tag, makes no collaborator call, and gives what the constructor
    without arguments gives: a null pointer and every stored dimension 0. *)
Theorem skip_check_construction_allocates_nothing
    (_Rows _Cols : Z) (tag : ei_constructor_without_unaligned_array_assert) (tr : trace) :
  (let s := {| Storage_D_D_D.m_data := 0; Storage_D_D_D.m_rows := 0;
               Storage_D_D_D.m_cols := 0 |} in
   Storage_D_D_D.ctor_skip tag tr = Some (s, tr) /\
   Storage_D_D_D.ctor_skip tag tr = Storage_D_D_D.ctor tr /\
   Storage_D_D_D.data s = 0 /\ Storage_D_D_D.rows s = 0 /\ Storage_D_D_D.cols s = 0) /\
  (let s := {| Storage_D_R_D.m_data := 0; Storage_D_R_D.m_cols := 0 |} in
   Storage_D_R_D.ctor_skip tag tr = Some (s, tr) /\
   Storage_D_R_D.ctor_skip tag tr = Storage_D_R_D.ctor tr /\
   Storage_D_R_D.data s = 0 /\ Storage_D_R_D.rows _Rows = _Rows /\
   Storage_D_R_D.cols s = 0) /\
  (let s := {| Storage_D_D_C.m_data := 0; Storage_D_D_C.m_rows := 0 |} in
   Storage_D_D_C.ctor_skip tag tr = Some (s, tr) /\
   Storage_D_D_C.ctor_skip tag tr = Storage_D_D_C.ctor tr /\
   Storage_D_D_C.data s = 0 /\ Storage_D_D_C.rows s = 0 /\
   Storage_D_D_C.cols _Cols = _Cols).
Proof. cbn zeta. repeat split. Qed.

(** ** [swap] *)

Lemma swap_array_twice {T : Type} (a b : ei_matrix_array T) :
  swap_array (swap_array a b).1 (swap_array a b).2 = (a, b).
Proof. by destruct a, b. Qed.

(** C5.  For each of the eight classes and objects [a], [b] of it: one
    [swap] gives [a] the rows, columns and elements of [b] and [b] those of
    [a] (the elements by copy between the inline arrays, which stay where
    they are, or by exchange of the buffer pointers), and a second [swap]
    gives both objects back as they were. *)
Theorem swap_twice_restores (T : Type) :
  (forall a b : Storage_S_R_C.ei_matrix_storage T,
     let a' := (Storage_S_R_C.swap T a b).1 in
     let b' := (Storage_S_R_C.swap T a b).2 in
     Storage_S_R_C.swap T a' b' = (a, b) /\
     array (Storage_S_R_C.m_data T a') = array (Storage_S_R_C.m_data T b) /\
     array (Storage_S_R_C.m_data T b') = array (Storage_S_R_C.m_data T a) /\
     Storage_S_R_C.data T a' = Storage_S_R_C.data T a /\
     Storage_S_R_C.data T b' = Storage_S_R_C.data T b) /\
  (forall a b : Storage_0_R_C.ei_matrix_storage,
     let a' := (Storage_0_R_C.swap a b).1 in
     let b' := (Storage_0_R_C.swap a b).2 in
     Storage_0_R_C.swap a' b' = (a, b) /\ a' = a /\ b' = b) /\
  (forall a b : Storage_S_D_D.ei_matrix_storage T,
     let a' := (Storage_S_D_D.swap T a b).1 in
     let b' := (Storage_S_D_D.swap T a b).2 in
     Storage_S_D_D.swap T a' b' = (a, b) /\
     Storage_S_D_D.rows T a' = Storage_S_D_D.rows T b /\
     Storage_S_D_D.cols T a' = Storage_S_D_D.cols T b /\
     array (Storage_S_D_D.m_data T a') = array (Storage_S_D_D.m_data T b) /\
     Storage_S_D_D.rows T b' = Storage_S_D_D.rows T a /\
     Storage_S_D_D.cols T b' = Storage_S_D_D.cols T a /\
     array (Storage_S_D_D.m_data T b') = array (Storage_S_D_D.m_data T a) /\
     Storage_S_D_D.data T a' = Storage_S_D_D.data T a /\
     Storage_S_D_D.data T b' = Storage_S_D_D.data T b) /\
  (forall a b : Storage_S_D_C.ei_matrix_storage T,
     let a' := (Storage_S_D_C.swap T a b).1 in
     let b' := (Storage_S_D_C.swap T a b).2 in
     Storage_S_D_C.swap T a' b' = (a, b) /\
     Storage_S_D_C.rows T a' = Storage_S_D_C.rows T b /\
     array (Storage_S_D_C.m_data T a') = array (Storage_S_D_C.m_data T b) /\
     Storage_S_D_C.rows T b' = Storage_S_D_C.rows T a /\
     array (Storage_S_D_C.m_data T b') = array (Storage_S_D_C.m_data T a) /\
     Storage_S_D_C.data T a' = Storage_S_D_C.data T a /\
     Storage_S_D_C.data T b' = Storage_S_D_C.data T b) /\
  (forall a b : Storage_S_R_D.ei_matrix_storage T,
     let a' := (Storage_S_R_D.swap T a b).1 in
     let b' := (Storage_S_R_D.swap T a b).2 in
     Storage_S_R_D.swap T a' b' = (a, b) /\
     Storage_S_R_D.cols T a' = Storage_S_R_D.cols T b /\
     array (Storage_S_R_D.m_data T a') = array (Storage_S_R_D.m_data T b) /\
     Storage_S_R_D.cols T b' = Storage_S_R_D.cols T a /\
     array (Storage_S_R_D.m_data T b') = array (Storage_S_R_D.m_data T a) /\
     Storage_S_R_D.data T a' = Storage_S_R_D.data T a /\
     Storage_S_R_D.data T b' = Storage_S_R_D.data T b) /\
  (forall a b : Storage_D_D_D.ei_matrix_storage,
     let a' := (Storage_D_D_D.swap a b).1 in
     let b' := (Storage_D_D_D.swap a b).2 in
     Storage_D_D_D.swap a' b' = (a, b) /\
     Storage_D_D_D.rows a' = Storage_D_D_D.rows b /\
     Storage_D_D_D.cols a' = Storage_D_D_D.cols b /\
     Storage_D_D_D.data a' = Storage_D_D_D.data b /\
     Storage_D_D_D.rows b' = Storage_D_D_D.rows a /\
     Storage_D_D_D.cols b' = Storage_D_D_D.cols a /\
     Storage_D_D_D.data b' = Storage_D_D_D.data a) /\
  (forall a b : Storage_D_R_D.ei_matrix_storage,
     let a' := (Storage_D_R_D.swap a b).1 in
     let b' := (Storage_D_R_D.swap a b).2 in
     Storage_D_R_D.swap a' b' = (a, b) /\
     Storage_D_R_D.cols a' = Storage_D_R_D.cols b /\
     Storage_D_R_D.data a' = Storage_D_R_D.data b /\
     Storage_D_R_D.cols b' = Storage_D_R_D.cols a /\
     Storage_D_R_D.data b' = Storage_D_R_D.data a) /\
  (forall a b : Storage_D_D_C.ei_matrix_storage,
     let a' := (Storage_D_D_C.swap a b).1 in
     let b' := (Storage_D_D_C.swap a b).2 in
     Storage_D_D_C.swap a' b' = (a, b) /\
     Storage_D_D_C.rows a' = Storage_D_D_C.rows b /\
     Storage_D_D_C.data a' = Storage_D_D_C.data b /\
     Storage_D_D_C.rows b' = Storage_D_D_C.rows a /\
     Storage_D_D_C.data b' = Storage_D_D_C.data a).
Proof.
  repeat apply conj; intros a b; cbn zeta.
  - by destruct a as [[? ?]], b as [[? ?]].
  - by destruct a, b.
  - by destruct a as [[? ?] ? ?], b as [[? ?] ? ?].
  - by destruct a as [[? ?] ?], b as [[? ?] ?].
  - by destruct a as [[? ?] ?], b as [[? ?] ?].
  - by destruct a, b.
  - by destruct a, b.
  - by destruct a, b.
Qed.

(** ** [resize] of the classes with an inline array *)

Lemma resize_all_preserves {S A : Type} (resize : Z -> Z -> Z -> S -> S) (f : S -> A) :
  (forall size rows cols s, f (resize size rows cols s) = f s) ->
  forall calls s, f (resize_all resize calls s) = f s.
Proof.
  intros Hf calls. unfold resize_all.
  induction calls as [|[[size rows] cols] calls IH]; intros s; cbn; [done|].
  by rewrite IH, Hf.
Qed.

Lemma ctor_skip_array_at {T : Type} (al : Z)
    (tag : ei_constructor_without_unaligned_array_assert) (pl : placement T) :
  ei_matrix_array_ctor_skip al tag pl = Some (array_at pl).
Proof. reflexivity. Qed.

(** C4.  For each of the four classes with an inline array: [resize] makes
    no collaborator call, stores the requested dynamic dimensions whatever
    element count it is given, and leaves the array alone, so that after any
    sequence of [resize] calls [data()] is the address the object was
    constructed at, which is not null. *)
Theorem resize_keeps_inline_buffer
    (T : Type) (cfg : build) (DontAlign sizeof_T Size _Options : Z)
    (tag : ei_constructor_without_unaligned_array_assert)
    (pl : placement T) (Hplaced : place_addr pl <> 0)
    (calls : list (Z * Z * Z)) (size size' rows cols n r c : Z) :
  (forall s : Storage_S_R_C.ei_matrix_storage T,
     Storage_S_R_C.resize T size rows cols s = s /\
     Storage_S_R_C.m_data T (resize_all (Storage_S_R_C.resize T) calls s)
     = Storage_S_R_C.m_data T s /\
     (Storage_S_R_C.ctor T DontAlign sizeof_T cfg Size _Options pl = Some s \/
      Storage_S_R_C.ctor_skip T DontAlign sizeof_T Size _Options tag pl = Some s \/
      Storage_S_R_C.ctor3 T DontAlign sizeof_T cfg Size _Options n r c pl = Some s ->
      Storage_S_R_C.data T (resize_all (Storage_S_R_C.resize T) calls s) = place_addr pl /\
      Storage_S_R_C.data T (resize_all (Storage_S_R_C.resize T) calls s) <> 0)) /\
  (forall s : Storage_S_D_D.ei_matrix_storage T,
     Storage_S_D_D.resize T size rows cols s
     = {| Storage_S_D_D.m_data := Storage_S_D_D.m_data T s;
          Storage_S_D_D.m_rows := rows; Storage_S_D_D.m_cols := cols |} /\
     Storage_S_D_D.resize T size rows cols s = Storage_S_D_D.resize T size' rows cols s /\
     Storage_S_D_D.m_data T (resize_all (Storage_S_D_D.resize T) calls s)
     = Storage_S_D_D.m_data T s /\
     (Storage_S_D_D.ctor T DontAlign sizeof_T cfg Size _Options pl = Some s \/
      Storage_S_D_D.ctor_skip T DontAlign sizeof_T Size _Options tag pl = Some s \/
      Storage_S_D_D.ctor3 T DontAlign sizeof_T cfg Size _Options n r c pl = Some s ->
      Storage_S_D_D.data T (resize_all (Storage_S_D_D.resize T) calls s) = place_addr pl /\
      Storage_S_D_D.data T (resize_all (Storage_S_D_D.resize T) calls s) <> 0)) /\
  (forall s : Storage_S_D_C.ei_matrix_storage T,
     Storage_S_D_C.resize T size rows cols s
     = {| Storage_S_D_C.m_data := Storage_S_D_C.m_data T s;
          Storage_S_D_C.m_rows := rows |} /\
     Storage_S_D_C.resize T size rows cols s = Storage_S_D_C.resize T size' rows cols s /\
     Storage_S_D_C.m_data T (resize_all (Storage_S_D_C.resize T) calls s)
     = Storage_S_D_C.m_data T s /\
     (Storage_S_D_C.ctor T DontAlign sizeof_T cfg Size _Options pl = Some s \/
      Storage_S_D_C.ctor_skip T DontAlign sizeof_T Size _Options tag pl = Some s \/
      Storage_S_D_C.ctor3 T DontAlign sizeof_T cfg Size _Options n r c pl = Some s ->
      Storage_S_D_C.data T (resize_all (Storage_S_D_C.resize T) calls s) = place_addr pl /\
      Storage_S_D_C.data T (resize_all (Storage_S_D_C.resize T) calls s) <> 0)) /\
  (forall s : Storage_S_R_D.ei_matrix_storage T,
     Storage_S_R_D.resize T size rows cols s
     = {| Storage_S_R_D.m_data := Storage_S_R_D.m_data T s;
          Storage_S_R_D.m_cols := cols |} /\
     Storage_S_R_D.resize T size rows cols s = Storage_S_R_D.resize T size' rows cols s /\
     Storage_S_R_D.m_data T (resize_all (Storage_S_R_D.resize T) calls s)
     = Storage_S_R_D.m_data T s /\
     (Storage_S_R_D.ctor T DontAlign sizeof_T cfg Size _Options pl = Some s \/
      Storage_S_R_D.ctor_skip T DontAlign sizeof_T Size _Options tag pl = Some s \/
      Storage_S_R_D.ctor3 T DontAlign sizeof_T cfg Size _Options n r c pl = Some s ->
      Storage_S_R_D.data T (resize_all (Storage_S_R_D.resize T) calls s) = place_addr pl /\
      Storage_S_R_D.data T (resize_all (Storage_S_R_D.resize T) calls s) <> 0)).
Proof.
  split; [|split; [|split]]; intros s.
  - split; [reflexivity|].
    split; [by apply (resize_all_preserves _ (Storage_S_R_C.m_data T))|].
    intros Hs. unfold Storage_S_R_C.data.
    rewrite (resize_all_preserves _ (Storage_S_R_C.m_data T)) by done.
    assert (Storage_S_R_C.m_data T s = array_at pl) as ->; [|done].
    destruct Hs as [Hs | [Hs | Hs]]; revert Hs;
      unfold Storage_S_R_C.ctor, Storage_S_R_C.ctor_skip, Storage_S_R_C.ctor3;
      rewrite ?ctor_skip_array_at; cbn; try ctor_succeeds; try (intros [= <-]); done.
  - split; [reflexivity|]. split; [reflexivity|].
    split; [by apply (resize_all_preserves _ (Storage_S_D_D.m_data T))|].
    intros Hs. unfold Storage_S_D_D.data.
    rewrite (resize_all_preserves _ (Storage_S_D_D.m_data T)) by done.
    assert (Storage_S_D_D.m_data T s = array_at pl) as ->; [|done].
    destruct Hs as [Hs | [Hs | Hs]]; revert Hs;
      unfold Storage_S_D_D.ctor, Storage_S_D_D.ctor_skip, Storage_S_D_D.ctor3;
      rewrite ?ctor_skip_array_at; cbn; try ctor_succeeds; try (intros [= <-]); done.
  - split; [reflexivity|]. split; [reflexivity|].
    split; [by apply (resize_all_preserves _ (Storage_S_D_C.m_data T))|].
    intros Hs. unfold Storage_S_D_C.data.
    rewrite (resize_all_preserves _ (Storage_S_D_C.m_data T)) by done.
    assert (Storage_S_D_C.m_data T s = array_at pl) as ->; [|done].
    destruct Hs as [Hs | [Hs | Hs]]; revert Hs;
      unfold Storage_S_D_C.ctor, Storage_S_D_C.ctor_skip, Storage_S_D_C.ctor3;
      rewrite ?ctor_skip_array_at; cbn; try ctor_succeeds; try (intros [= <-]); done.
  - split; [reflexivity|]. split; [reflexivity|].
    split; [by apply (resize_all_preserves _ (Storage_S_R_D.m_data T))|].
    intros Hs. unfold Storage_S_R_D.data.
    rewrite (resize_all_preserves _ (Storage_S_R_D.m_data T)) by done.
    assert (Storage_S_R_D.m_data T s = array_at pl) as ->; [|done].
    destruct Hs as [Hs | [Hs | Hs]]; revert Hs;
      unfold Storage_S_R_D.ctor, Storage_S_R_D.ctor_skip, Storage_S_R_D.ctor3;
      rewrite ?ctor_skip_array_at; cbn; try ctor_succeeds; try (intros [= <-]); done.
Qed.

(** C4 on four 4-byte elements placed at address 32. *)
Lemma resize_keeps_inline_buffer_witness :
  let cfg := {| EIGEN_DISABLE_UNALIGNED_ARRAY_ASSERT := false; EIGEN_NO_DEBUG := false |} in
  let pl := {| place_addr := 32; place_elems := [7; 7; 7; 7] |} in
  let s := {| Storage_S_D_D.m_data := array_at pl; Storage_S_D_D.m_rows := 2;
              Storage_S_D_D.m_cols := 2 |} in
  let calls := [(100, 1, 2); (0, 4, 1)] in
  place_addr pl <> 0 /\
  Storage_S_D_D.ctor3 Z 2 4 cfg 4 0 4 2 2 pl = Some s /\
  Storage_S_D_D.data Z (resize_all (Storage_S_D_D.resize Z) calls s) = 32 /\
  Storage_S_D_D.data Z (resize_all (Storage_S_D_D.resize Z) calls s) <> 0.
Proof.
  intros cfg pl s calls.
  assert (place_addr pl <> 0) as Hpl by discriminate.
  assert (Storage_S_D_D.ctor3 Z 2 4 cfg 4 0 4 2 2 pl = Some s) as Hs by reflexivity.
  split; [exact Hpl|]. split; [exact Hs|].
  destruct (resize_keeps_inline_buffer Z cfg 2 4 4 0 without_unaligned_array_assert
              pl Hpl calls 0 0 0 0 4 2 2) as (_ & H & _).
  destruct (H s) as (_ & _ & _ & Hd). apply Hd. right. right. exact Hs.
Defined.

(** ** The null matrix *)

(** C8.  The class of the null matrix has no state: whatever [resize] and
    [swap] calls are made on two of its objects, with whatever arguments,
    the objects are as before, [data()] is null, and [rows()] and [cols()]
    are the template arguments. *)
Theorem null_storage_is_constant (_Rows _Cols : Z) (ops : list op2)
    (a b : Storage_0_R_C.ei_matrix_storage) :
  let ab := run2 Storage_0_R_C.resize Storage_0_R_C.swap ops (a, b) in
  ab = (a, b) /\
  Storage_0_R_C.data ab.1 = 0 /\ Storage_0_R_C.data ab.2 = 0 /\
  Storage_0_R_C.rows _Rows = _Rows /\ Storage_0_R_C.cols _Cols = _Cols /\
  (forall size rows cols tag,
     Storage_0_R_C.data Storage_0_R_C.ctor = 0 /\
     Storage_0_R_C.data (Storage_0_R_C.ctor_skip tag) = 0 /\
     Storage_0_R_C.data (Storage_0_R_C.ctor3 size rows cols) = 0).
Proof.
  cbn zeta. split; [|done]. unfold run2.
  induction ops as [|o ops IH] using rev_ind; [done|].
  rewrite foldl_app. cbn. rewrite IH. by destruct o.
Qed.

(** ** Alignment of the inline array *)

Lemma Alignment_16 (DontAlign sizeof_T Size MatrixOptions : Z) :
  Alignment DontAlign sizeof_T Size MatrixOptions = 16
  <-> Z.land MatrixOptions DontAlign = 0 /\ (Size * sizeof_T) mod 16 = 0.
Proof.
  unfold Alignment.
  destruct (Z.eqb_spec (Z.land MatrixOptions DontAlign) 0) as [Hd|Hd]; cbn.
  - destruct (Z.eqb_spec ((Size * sizeof_T) mod 16) 0) as [Hs|Hs].
    + split; done.
    + split; [discriminate|]. intros [_ ?]. done.
  - split; [discriminate|]. intros [? _]. done.
Qed.

Lemma checked_array_ctor_fails {T : Type} (cfg : build) (pl : placement T) :
  asserting cfg ->
  ei_matrix_array_ctor cfg 16 pl = None <-> ~ EIGEN_ALIGN16 (place_addr pl).
Proof.
  intros [Hd Hn]. rewrite ei_matrix_array_ctor_None.
  unfold EIGEN_MAKE_UNALIGNED_ARRAY_ASSERT, ei_assert, EIGEN_ALIGN16.
  rewrite Hd, Hn, land_15_mod_16.
  destruct (Z.eqb_spec (place_addr pl mod 16) 0) as [H0|H0].
  - split; [intros [_ ?]; discriminate | done].
  - split; done.
Qed.

Lemma run2_keeps {S : Type} (resize : Z -> Z -> Z -> S -> S) (swap : S -> S -> S * S)
    (data : S -> Z) :
  (forall size rows cols s, data (resize size rows cols s) = data s) ->
  (forall a b, data (swap a b).1 = data a /\ data (swap a b).2 = data b) ->
  forall ops a b,
    data (run2 resize swap ops (a, b)).1 = data a /\
    data (run2 resize swap ops (a, b)).2 = data b.
Proof.
  intros Hr Hs ops a b. unfold run2.
  induction ops as [|o ops [IH1 IH2]] using rev_ind; [done|].
  rewrite foldl_app. cbn.
  destruct (foldl (step2 resize swap) (a, b) ops) as [a1 b1]. cbn in *.
  destruct o as [n r c | n r c | | ]; cbn.
  - by rewrite Hr.
  - by rewrite Hr.
  - destruct (Hs a1 b1) as [H1 H2]. by rewrite H1, H2.
  - destruct (Hs b1 a1) as [H1 H2]. destruct (swap b1 a1) as [b2 a2]. cbn in *.
    by rewrite H1, H2.
Qed.

(** The contract, for a class whose constructors wrap the array's. *)
Lemma alignment_contract_of_wrapper {T S : Type} (cfg : build)
    (ctor : placement T -> option S)
    (ctor_skip : ei_constructor_without_unaligned_array_assert -> placement T -> option S)
    (ctor3 : Z -> Z -> Z -> placement T -> option S)
    (resize : Z -> Z -> Z -> S -> S) (swap : S -> S -> S * S) (data : S -> Z)
    (mk : ei_matrix_array T -> S) (mk3 : Z -> Z -> Z -> ei_matrix_array T -> S) :
  (forall pl, ctor pl = mk <$> ei_matrix_array_ctor cfg 16 pl) ->
  (forall tag pl, ctor_skip tag pl = mk <$> ei_matrix_array_ctor_skip 16 tag pl) ->
  (forall n r c pl, ctor3 n r c pl = mk3 n r c <$> ei_matrix_array_ctor cfg 16 pl) ->
  (forall a, data (mk a) = array_addr a) ->
  (forall n r c a, data (mk3 n r c a) = array_addr a) ->
  (forall size rows cols s, data (resize size rows cols s) = data s) ->
  (forall a b, data (swap a b).1 = data a /\ data (swap a b).2 = data b) ->
  alignment_contract cfg ctor ctor_skip ctor3 resize swap data.
Proof.
  intros Hctor Hskip Hctor3 Hmk Hmk3 Hresize Hswap.
  assert (forall pl s n r c tag,
            ctor pl = Some s \/ ctor_skip tag pl = Some s \/ ctor3 n r c pl = Some s ->
            data s = place_addr pl) as Hplace.
  { intros pl s n r c tag. rewrite Hctor, Hskip, Hctor3.
    intros [H | [H | H]]; revert H.
    - destruct (ei_matrix_array_ctor cfg 16 pl) as [a|] eqn:E; cbn; [|done].
      apply ei_matrix_array_ctor_Some in E. subst a. intros [= <-]. by rewrite Hmk.
    - cbn. intros [= <-]. by rewrite Hmk.
    - destruct (ei_matrix_array_ctor cfg 16 pl) as [a|] eqn:E; cbn; [|done].
      apply ei_matrix_array_ctor_Some in E. subst a. intros [= <-]. by rewrite Hmk3. }
  split; [|split; [|split]].
  - intros pl tag n r c s Hs. exact (Hplace pl s n r c tag Hs).
  - intros Hcfg pl n r c.
    pose proof (checked_array_ctor_fails cfg pl Hcfg) as Hfail.
    split; [|split].
    + rewrite Hctor, <- Hfail. by destruct (ei_matrix_array_ctor cfg 16 pl).
    + rewrite Hctor3, <- Hfail. by destruct (ei_matrix_array_ctor cfg 16 pl).
    + intros s Hs.
      rewrite (Hplace pl s n r c without_unaligned_array_assert) by tauto.
      destruct (decide (EIGEN_ALIGN16 (place_addr pl))) as [|Hoff]; [done|].
      apply Hfail in Hoff. rewrite Hctor, Hctor3, Hoff in Hs. by destruct Hs.
  - intros tag pl. rewrite Hskip. cbn. eexists. split; [reflexivity|]. by rewrite Hmk.
  - by apply run2_keeps.
Qed.

(** Proves the contract for one class, given that its [Alignment] is 16. *)
Ltac wrapper_contract Hal mk mk3 :=
  apply (alignment_contract_of_wrapper _ _ _ _ _ _ _ mk mk3);
  [ intros pl; cbv beta delta [Storage_S_R_C.ctor Storage_S_D_D.ctor
                                Storage_S_D_C.ctor Storage_S_R_D.ctor];
    rewrite Hal; by destruct (ei_matrix_array_ctor _ 16 pl)
  | intros tag pl; reflexivity
  | intros n r c pl; cbv beta delta [Storage_S_R_C.ctor3 Storage_S_D_D.ctor3
                                      Storage_S_D_C.ctor3 Storage_S_R_D.ctor3];
    rewrite Hal; by destruct (ei_matrix_array_ctor _ 16 pl)
  | reflexivity
  | reflexivity
  | reflexivity
  | intros a b; by destruct a as [[? ?]], b as [[? ?]] ].

(** C6, as stated, fails: with [Alignment = 16], the skip-check constructor
    in any build, and the checked constructor in a build without assertions,
    return an object placed at address 8, and its [data()] is 8. *)
Lemma unchecked_construction_can_be_unaligned :
  let asserts := {| EIGEN_DISABLE_UNALIGNED_ARRAY_ASSERT := false;
                    EIGEN_NO_DEBUG := false |} in
  let silent := {| EIGEN_DISABLE_UNALIGNED_ARRAY_ASSERT := false;
                   EIGEN_NO_DEBUG := true |} in
  let off := {| place_addr := 8; place_elems := [7; 7; 7; 7] |} in
  let s := {| Storage_S_D_D.m_data := array_at off; Storage_S_D_D.m_rows := 0;
              Storage_S_D_D.m_cols := 0 |} in
  Alignment 2 4 4 0 = 16 /\
  Storage_S_D_D.ctor_skip Z 2 4 4 0 without_unaligned_array_assert off = Some s /\
  Storage_S_D_D.ctor Z 2 4 silent 4 0 off = Some s /\
  Storage_S_D_D.ctor Z 2 4 asserts 4 0 off = None /\
  Storage_S_D_D.data Z s = 8 /\
  ~ EIGEN_ALIGN16 (Storage_S_D_D.data Z s).
Proof. cbn zeta. repeat split. unfold EIGEN_ALIGN16. cbn. discriminate. Qed.

(** C6, amended.  The inline array has [Alignment = 16] exactly when
    [DontAlign] is not among the options and [Size * sizeof(T)] is a
    multiple of 16.  Each of the four classes that hold such an array then
    keeps the [alignment_contract]: [data()] is the address the object is
    constructed at, after every constructor and after any [swap] and
    [resize], so the buffer is on a 16-byte boundary exactly when the object
    is placed on one; in an asserting build the checked constructors assert
    the boundary, fail when it is missed, and so return aligned objects only;
    the skip-check constructor asserts nothing and returns at any address. *)
Theorem inline_buffer_alignment
    (T : Type) (cfg : build) (DontAlign sizeof_T Size _Options : Z) :
  (Alignment DontAlign sizeof_T Size _Options = 16
   <-> Z.land _Options DontAlign = 0 /\ (Size * sizeof_T) mod 16 = 0) /\
  (Alignment DontAlign sizeof_T Size _Options = 16 ->
   alignment_contract cfg
     (Storage_S_R_C.ctor T DontAlign sizeof_T cfg Size _Options)
     (Storage_S_R_C.ctor_skip T DontAlign sizeof_T Size _Options)
     (Storage_S_R_C.ctor3 T DontAlign sizeof_T cfg Size _Options)
     (Storage_S_R_C.resize T) (Storage_S_R_C.swap T) (Storage_S_R_C.data T) /\
   alignment_contract cfg
     (Storage_S_D_D.ctor T DontAlign sizeof_T cfg Size _Options)
     (Storage_S_D_D.ctor_skip T DontAlign sizeof_T Size _Options)
     (Storage_S_D_D.ctor3 T DontAlign sizeof_T cfg Size _Options)
     (Storage_S_D_D.resize T) (Storage_S_D_D.swap T) (Storage_S_D_D.data T) /\
   alignment_contract cfg
     (Storage_S_D_C.ctor T DontAlign sizeof_T cfg Size _Options)
     (Storage_S_D_C.ctor_skip T DontAlign sizeof_T Size _Options)
     (Storage_S_D_C.ctor3 T DontAlign sizeof_T cfg Size _Options)
     (Storage_S_D_C.resize T) (Storage_S_D_C.swap T) (Storage_S_D_C.data T) /\
   alignment_contract cfg
     (Storage_S_R_D.ctor T DontAlign sizeof_T cfg Size _Options)
     (Storage_S_R_D.ctor_skip T DontAlign sizeof_T Size _Options)
     (Storage_S_R_D.ctor3 T DontAlign sizeof_T cfg Size _Options)
     (Storage_S_R_D.resize T) (Storage_S_R_D.swap T) (Storage_S_R_D.data T)).
Proof.
  split; [apply Alignment_16|]. intros Hal. split; [|split; [|split]].
  - wrapper_contract Hal
      (fun a : ei_matrix_array T => {| Storage_S_R_C.m_data := a |})
      (fun (_ _ _ : Z) (a : ei_matrix_array T) => {| Storage_S_R_C.m_data := a |}).
  - wrapper_contract Hal
      (fun a : ei_matrix_array T => {| Storage_S_D_D.m_data := a; Storage_S_D_D.m_rows := 0;
                   Storage_S_D_D.m_cols := 0 |})
      (fun (_ r c : Z) (a : ei_matrix_array T) => {| Storage_S_D_D.m_data := a; Storage_S_D_D.m_rows := r;
                               Storage_S_D_D.m_cols := c |}).
  - wrapper_contract Hal
      (fun a : ei_matrix_array T => {| Storage_S_D_C.m_data := a; Storage_S_D_C.m_rows := 0 |})
      (fun (_ r _ : Z) (a : ei_matrix_array T) => {| Storage_S_D_C.m_data := a; Storage_S_D_C.m_rows := r |}).
  - wrapper_contract Hal
      (fun a : ei_matrix_array T => {| Storage_S_R_D.m_data := a; Storage_S_R_D.m_cols := 0 |})
      (fun (_ _ c : Z) (a : ei_matrix_array T) => {| Storage_S_R_D.m_data := a; Storage_S_R_D.m_cols := c |}).
Qed.

(** C6, amended, on four 4-byte elements, placed at address 32 and at
    address 8. *)
Lemma inline_buffer_alignment_witness :
  let cfg := {| EIGEN_DISABLE_UNALIGNED_ARRAY_ASSERT := false; EIGEN_NO_DEBUG := false |} in
  let pl := {| place_addr := 32; place_elems := [7; 7; 7; 7] |} in
  let off := {| place_addr := 8; place_elems := [7; 7; 7; 7] |} in
  let s := {| Storage_S_D_D.m_data := array_at pl; Storage_S_D_D.m_rows := 0;
              Storage_S_D_D.m_cols := 0 |} in
  Alignment 2 4 4 0 = 16 /\ asserting cfg /\ EIGEN_ALIGN16 (place_addr pl) /\
  Storage_S_D_D.ctor Z 2 4 cfg 4 0 pl = Some s /\
  EIGEN_ALIGN16 (Storage_S_D_D.data Z s) /\
  Storage_S_D_D.ctor Z 2 4 cfg 4 0 off = None /\
  (exists s', Storage_S_D_D.ctor_skip Z 2 4 4 0 without_unaligned_array_assert off = Some s' /\
              Storage_S_D_D.data Z s' = 8).
Proof.
  intros cfg pl off s.
  assert (Alignment 2 4 4 0 = 16) as Hal by reflexivity.
  assert (asserting cfg) as Hcfg by (split; reflexivity).
  assert (EIGEN_ALIGN16 (place_addr pl)) as Hpl by reflexivity.
  assert (Storage_S_D_D.ctor Z 2 4 cfg 4 0 pl = Some s) as Hs by reflexivity.
  destruct (inline_buffer_alignment Z cfg 2 4 4 0) as [_ H].
  destruct (H Hal) as (_ & (Hplaced & Hchecked & Hskip & _) & _).
  destruct (Hchecked Hcfg off 0 0 0) as (Hfail & _ & _).
  destruct (Hchecked Hcfg pl 0 0 0) as (_ & _ & Haligned).
  split; [exact Hal|]. split; [exact Hcfg|]. split; [exact Hpl|]. split; [exact Hs|].
  split; [apply Haligned; left; exact Hs|].
  split; [apply Hfail; unfold EIGEN_ALIGN16; cbn; discriminate|].
  exact (Hskip without_unaligned_array_assert off).
Defined.

(** * Further properties *)

(** ** Ownership, whatever element counts are passed *)
Section OwnershipInvariant.
Context {S : Type} {HS : HeapStorage S}.
Variable alloc : allocator.
Variable align : bool.
Variable count : Z -> Z -> Z.
Hypothesis laws : HeapStorageLaws HS alloc align count.
Hypothesis Hfresh : alloc_fresh alloc.

Lemma own_inv_nil : own_inv (S := S) [] [].
Proof.
  split; [|split].
  - intros *. by rewrite lookup_nil.
  - intros *. by rewrite lookup_nil.
  - intros p _ [n Hn]. unfold blocks in Hn. cbn in Hn. by rewrite lookup_empty in Hn.
Qed.

Lemma own_inv_snoc (pool : list S) (tr tr' : trace) (s : S) :
  own_inv pool tr ->
  (hs_data s <> 0 -> blocks tr !! hs_data s = None) ->
  (forall q, q <> 0 ->
     is_Some (blocks tr' !! q) <-> is_Some (blocks tr !! q) \/ q = hs_data s) ->
  own_inv (pool ++ [s]) tr'.
Proof.
  intros (Hlive & Hsep & Hall) Hnew Hb. split; [|split].
  - intros i x [Hx | [_ Hx]]%lookup_app_Some Hd.
    + apply Hb; [done|]. left. eauto.
    + apply list_lookup_singleton_Some in Hx as [_ <-]. apply Hb; [done|]. by right.
  - intros i j a b [Ha | [Hi Ha]]%lookup_app_Some [Hb' | [Hj Hb']]%lookup_app_Some Hij Hd.
    + eauto.
    + apply list_lookup_singleton_Some in Hb' as [_ <-]. intros Heq.
      destruct (Hlive _ _ Ha Hd) as [n Hn].
      rewrite Heq, Hnew in Hn by congruence. done.
    + apply list_lookup_singleton_Some in Ha as [_ <-]. intros Heq.
      assert (hs_data b <> 0) as Hb0 by congruence.
      destruct (Hlive _ _ Hb' Hb0) as [n Hn].
      rewrite <- Heq, Hnew in Hn by done. done.
    + apply list_lookup_singleton_Some in Ha as [Ha _].
      apply list_lookup_singleton_Some in Hb' as [Hb' _]. lia.
  - intros p Hp [Hold | ->]%Hb; [|clear Hb|done].
    + destruct (Hall p Hp Hold) as (i & x & Hx & Hd). exists i, x.
      split; [|done]. apply lookup_app_Some. by left.
    + exists (length pool), s. split; [|done].
      apply lookup_app_Some. right. split; [lia|].
      by rewrite Nat.sub_diag.
Qed.

Lemma own_inv_update (pool : list S) (tr tr' : trace) (i : nat) (s s' : S) :
  own_inv pool tr ->
  pool !! i = Some s ->
  (hs_data s' <> 0 -> hs_data s' = hs_data s \/ blocks tr !! hs_data s' = None) ->
  (forall q, q <> 0 ->
     is_Some (blocks tr' !! q)
     <-> (is_Some (blocks tr !! q) /\ q <> hs_data s) \/ q = hs_data s') ->
  own_inv (<[i := s']> pool) tr'.
Proof.
  intros (Hlive & Hsep & Hall) Hi Hnew Hb.
  assert (forall k x, k <> i -> pool !! k = Some x -> hs_data x <> 0 ->
            hs_data x <> hs_data s /\ hs_data x <> hs_data s') as Hother.
  { intros k x Hk Hx Hd. split; [by eapply Hsep|]. intros Heq.
    destruct (Hlive _ _ Hx Hd) as [n Hn].
    destruct Hnew as [Hs | Hs]; [congruence| |].
    - rewrite <- Heq in Hs. by eapply (Hsep k i x s).
    - rewrite <- Heq, Hn in Hs. done. }
  split; [|split].
  - intros k x [(-> & <- & _) | [Hk Hx]]%list_lookup_insert_Some Hd.
    + apply Hb; [done|]. by right.
    + apply Hb; [done|]. left. split; [eauto|]. by eapply Hother.
  - intros k1 k2 a b
      [(-> & <- & _) | [Hk1 Ha]]%list_lookup_insert_Some
      [(-> & <- & _) | [Hk2 Hb']]%list_lookup_insert_Some Hne Hd.
    + done.
    + intros Heq. assert (hs_data b <> 0) as Hb0 by congruence.
      destruct (Hother k2 b) as [_ ?]; [done..|]. congruence.
    + by eapply Hother.
    + eauto.
  - intros p Hp [[Hold Hne] | ->]%Hb; [| |done].
    + destruct (Hall p Hp Hold) as (j & y & Hy & Hd). exists j, y. split; [|done].
      rewrite list_lookup_insert_ne; [done|]. intros <-. congruence.
    + exists i, s'. split; [|done]. apply list_lookup_insert_eq.
      by eapply lookup_lt_Some.
Qed.

Lemma own_inv_reindex (pool pool' : list S) (tr tr' : trace) (f : nat -> nat) :
  own_inv pool tr ->
  (forall k1 k2, f k1 = f k2 -> k1 = k2) ->
  (forall k x, pool' !! k = Some x ->
     exists y, pool !! f k = Some y /\ hs_data x = hs_data y /\
               (hs_data y <> 0 -> is_Some (blocks tr' !! hs_data y))) ->
  (forall p, p <> 0 -> is_Some (blocks tr' !! p) ->
     exists k x, pool' !! k = Some x /\ hs_data x = p) ->
  own_inv pool' tr'.
Proof.
  intros (Hlive & Hsep & Hall) Hinj Hf Hall'. split; [|split]; [| |done].
  - intros k x Hx Hd. destruct (Hf _ _ Hx) as (y & Hy & Hxy & Hb).
    rewrite Hxy. apply Hb. congruence.
  - intros k1 k2 a b Ha Hb Hne Hd.
    destruct (Hf _ _ Ha) as (ya & Hya & Hda & _).
    destruct (Hf _ _ Hb) as (yb & Hyb & Hdb & _).
    rewrite Hda, Hdb. eapply Hsep; eauto. congruence.
Qed.

Lemma step_own_inv (o : op) (pool pool' : list S) (tr tr' : trace) :
  own_inv pool tr ->
  step o pool tr = Some (pool', tr') ->
  own_inv pool' tr'.
Proof.
  intros Hinv Hstep. destruct o as [n r c | | | i n r c | i j | i]; cbn in Hstep.
  - (* Construct *)
    unfold bind in Hstep. destruct (hs_ctor3 n r c tr) as [[s tr1]|] eqn:E; [|done].
    injection Hstep as <- <-.
    destruct (law_ctor3 _ _ _ _ laws _ _ _ _ _ _ E) as (Ha & -> & _).
    eapply own_inv_snoc; [done| |].
    + intros Hd. by eapply Hfresh.
    + intros q Hq. rewrite blocks_snoc. cbn. rewrite lookup_insert.
      case_decide; [subst q|]; split; eauto. by intros [?|?].
  - (* ConstructDefault *)
    destruct (law_ctor _ _ _ _ laws tr) as (s & E & Hd & _).
    unfold bind in Hstep. rewrite E in Hstep. injection Hstep as <- <-.
    eapply own_inv_snoc; [done|congruence|].
    intros q Hq. split; [auto|]. intros [?|?]; [done|congruence].
  - (* ConstructSkip *)
    destruct (law_ctor_skip _ _ _ _ laws without_unaligned_array_assert tr)
      as (s & E & Hd & _).
    unfold bind in Hstep. rewrite E in Hstep. injection Hstep as <- <-.
    eapply own_inv_snoc; [done|congruence|].
    intros q Hq. split; [auto|]. intros [?|?]; [done|congruence].
  - (* Resize *)
    destruct (pool !! i) as [s|] eqn:Hi; [|done]. unfold bind in Hstep.
    destruct (hs_resize n r c s tr) as [[s' tr1]|] eqn:E; [|done].
    injection Hstep as <- <-.
    destruct (decide (n = element_count s)) as [Hsame|Hdiff].
    + destruct (law_resize_same _ _ _ _ laws n r c s tr Hsame) as (s2 & E2 & Hd & _).
      rewrite E in E2. injection E2 as <- <-.
      eapply own_inv_update; [done|done|by left|].
      intros q Hq. rewrite Hd. split.
      * intros Hl. destruct (decide (q = hs_data s)); [by right|by left].
      * intros [[? _] | ->]; [done|]. destruct Hinv as (Hlive & _). eauto.
    + destruct (decide (n = 0)) as [Hz|Hnz].
      * destruct (law_resize_zero _ _ _ _ laws n r c s tr Hdiff Hz) as (s2 & E2 & Hd & _).
        rewrite E in E2. injection E2 as <- ->.
        eapply own_inv_update; [done|done|congruence|].
        intros q Hq. rewrite blocks_snoc, Hd. cbn. rewrite lookup_delete.
        case_decide; [subst q|]; split.
        -- by intros [? ?].
        -- intros [[_ ?] | ?]; done.
        -- intros ?. left. split; [done|congruence].
        -- intros [[? _] | ?]; done.
      * destruct (law_resize_new _ _ _ _ laws _ _ _ _ _ _ _ Hdiff Hnz E) as (Ha & -> & _).
        change [EvDelete align (hs_data s) (element_count s); EvNew align n (hs_data s')]
          with ([EvDelete align (hs_data s) (element_count s)] ++ [EvNew align n (hs_data s')]).
        rewrite app_assoc.
        eapply own_inv_update; [done|done| |].
        -- intros Hp. pose proof (Hfresh _ _ _ _ Ha Hp) as Hf.
           rewrite blocks_snoc in Hf. cbn in Hf.
           apply lookup_delete_None in Hf as [Hf | Hf]; [by left|by right].
        -- intros q Hq. rewrite !blocks_snoc. cbn. rewrite lookup_insert, lookup_delete.
           repeat case_decide; subst; split; eauto; try tauto;
             first [ by intros [? ?] | intros [[? ?] | ?]; done || congruence ].
  - (* Swap *)
    destruct (pool !! i) as [a|] eqn:Hi; [|done].
    destruct (pool !! j) as [b|] eqn:Hj; [|done].
    destruct (law_swap _ _ _ _ laws a b) as (Ha1 & _ & Hb1 & _).
    destruct (hs_swap a b) as [a' b']. cbn in *. injection Hstep as <- <-.
    pose proof Hinv as (Hlive & _ & Hall).
    eapply (own_inv_reindex _ _ _ _
              (fun k => if decide (k = j) then i else if decide (k = i) then j else k));
      [done| | |].
    + intros k1 k2. repeat case_decide; congruence.
    + intros k x [(-> & <- & _) | [Hk Hx]]%list_lookup_insert_Some.
      * rewrite decide_True by done. exists a. eauto.
      * rewrite decide_False by done.
        apply list_lookup_insert_Some in Hx as [(-> & <- & _) | [Hk' Hx]].
        -- rewrite decide_True by done. exists b. eauto.
        -- rewrite decide_False by done. exists x. eauto.
    + intros p Hp Hl. destruct (Hall p Hp Hl) as (k & y & Hy & Hd).
      pose proof (lookup_lt_Some _ _ _ Hi) as Hli.
      pose proof (lookup_lt_Some _ _ _ Hj) as Hlj.
      destruct (decide (k = i)) as [->|Hki].
      * exists j, b'. split; [|congruence].
        apply list_lookup_insert_eq. by rewrite length_insert.
      * destruct (decide (k = j)) as [->|Hkj].
        -- exists i, a'. split; [|congruence].
           rewrite list_lookup_insert_ne by done. by apply list_lookup_insert_eq.
        -- exists k, y. split; [|done]. by rewrite !list_lookup_insert_ne.
  - (* Destroy *)
    destruct (pool !! i) as [s|] eqn:Hi; [|done].
    unfold bind in Hstep. rewrite (law_dtor _ _ _ _ laws s tr) in Hstep.
    injection Hstep as <- <-.
    pose proof Hinv as (Hlive & Hsep & Hall).
    eapply (own_inv_reindex _ _ _ _
              (fun k => if decide (k < i)%nat then k else Datatypes.S k)); [done| | |].
    + intros k1 k2. repeat case_decide; lia.
    + intros k x Hx. rewrite list_lookup_delete in Hx.
      exists x. split; [done|]. split; [done|].
      intros Hd. rewrite blocks_snoc. cbn. rewrite lookup_delete_ne; [eauto|].
      intros Heq. eapply (Hsep _ i x s); [done..| |done|by symmetry].
      case_decide; lia.
    + intros p Hp. rewrite blocks_snoc. cbn. rewrite lookup_delete.
      case_decide as Hps; [by intros [? ?]|]. intros Hl.
      destruct (Hall p Hp Hl) as (k & y & Hy & Hd).
      assert (k <> i) as Hki by (intros ->; congruence).
      destruct (decide (k < i)%nat) as [Hlt|Hge].
      * exists k, y. split; [|done]. rewrite list_lookup_delete. by rewrite decide_True.
      * exists (pred k), y. split; [|done]. rewrite list_lookup_delete.
        rewrite decide_False by lia. replace (Datatypes.S (pred k)) with k by lia. done.
Qed.

Lemma run_own_inv (ops : list op) (pool pool' : list S) (tr tr' : trace) :
  own_inv pool tr ->
  run ops pool tr = Some (pool', tr') ->
  own_inv pool' tr'.
Proof.
  revert pool tr. induction ops as [|o ops IH]; intros pool tr Hinv Hrun; cbn in Hrun.
  - by injection Hrun as <- <-.
  - unfold bind in Hrun. destruct (step o pool tr) as [[pool1 tr1]|] eqn:E; [|done].
    eapply IH; [|done]. by eapply step_own_inv.
Qed.

End OwnershipInvariant.

(** ** Releases *)

Lemma releases_ok_app (sized : bool) (live : gmap Z Z) (t1 t2 : trace) :
  releases_ok sized live (t1 ++ t2)
  = releases_ok sized live t1 && releases_ok sized (foldl apply_event live t1) t2.
Proof.
  revert live. induction t1 as [|e t1 IH]; intros live; cbn; [done|].
  by rewrite IH, andb_assoc.
Qed.

Section Releases.
Context {S : Type} {HS : HeapStorage S}.
Variable alloc : allocator.
Variable align : bool.
Variable count : Z -> Z -> Z.
Hypothesis laws : HeapStorageLaws HS alloc align count.

(** What one operation adds to the trace. *)
Lemma step_events (o : op) (pool pool' : list S) (tr tr' : trace) :
  step o pool tr = Some (pool', tr') ->
  tr' = tr \/
  (exists n p, tr' = tr ++ [EvNew align n p]) \/
  (exists i s, pool !! i = Some s /\
     (tr' = tr ++ [EvDelete align (hs_data s) (element_count s)] \/
      exists n p, tr' = tr ++ [EvDelete align (hs_data s) (element_count s);
                               EvNew align n p])).
Proof.
  intros Hstep. destruct o as [n r c | | | i n r c | i j | i]; cbn in Hstep.
  - unfold bind in Hstep. destruct (hs_ctor3 n r c tr) as [[s tr1]|] eqn:E; [|done].
    injection Hstep as <- <-.
    destruct (law_ctor3 _ _ _ _ laws _ _ _ _ _ _ E) as (_ & -> & _). right. left. eauto.
  - destruct (law_ctor _ _ _ _ laws tr) as (s & E & _).
    unfold bind in Hstep. rewrite E in Hstep. injection Hstep as <- <-. by left.
  - destruct (law_ctor_skip _ _ _ _ laws without_unaligned_array_assert tr) as (s & E & _).
    unfold bind in Hstep. rewrite E in Hstep. injection Hstep as <- <-. by left.
  - destruct (pool !! i) as [s|] eqn:Hi; [|done]. unfold bind in Hstep.
    destruct (hs_resize n r c s tr) as [[s' tr1]|] eqn:E; [|done].
    injection Hstep as <- <-.
    destruct (decide (n = element_count s)) as [Hsame|Hdiff].
    + destruct (law_resize_same _ _ _ _ laws n r c s tr Hsame) as (s2 & E2 & _).
      rewrite E in E2. injection E2 as _ ->. by left.
    + right. right. exists i, s. split; [done|].
      destruct (decide (n = 0)) as [Hz|Hnz].
      * destruct (law_resize_zero _ _ _ _ laws n r c s tr Hdiff Hz) as (s2 & E2 & _).
        rewrite E in E2. injection E2 as _ ->. by left.
      * destruct (law_resize_new _ _ _ _ laws _ _ _ _ _ _ _ Hdiff Hnz E) as (_ & -> & _).
        right. eauto.
  - destruct (pool !! i) as [a|]; [|done]. destruct (pool !! j) as [b|]; [|done].
    destruct (hs_swap a b) as [a' b']. injection Hstep as <- <-. by left.
  - destruct (pool !! i) as [s|] eqn:Hi; [|done].
    unfold bind in Hstep. rewrite (law_dtor _ _ _ _ laws s tr) in Hstep.
    injection Hstep as <- <-. right. right. exists i, s. split; [done|]. by left.
Qed.

Lemma step_releases_ok (sized : bool) (o : op) (pool pool' : list S) (tr tr' : trace) :
  (forall i s, pool !! i = Some s ->
     release_ok sized (blocks tr) (EvDelete align (hs_data s) (element_count s)) = true) ->
  releases_ok sized ∅ tr = true ->
  step o pool tr = Some (pool', tr') ->
  releases_ok sized ∅ tr' = true.
Proof.
  intros Hrel Hok Hstep.
  destruct (step_events _ _ _ _ _ Hstep)
    as [-> | [(n & p & ->) | (i & s & Hi & [-> | (n & p & ->)])]]; [done|..];
    rewrite releases_ok_app, Hok; fold (blocks tr); cbn [andb releases_ok];
    rewrite ?(Hrel _ _ Hi); done.
Qed.

Lemma run_releases_live (ops : list op) (pool pool' : list S) (tr tr' : trace) :
  alloc_fresh alloc ->
  own_inv pool tr -> releases_ok false ∅ tr = true ->
  run ops pool tr = Some (pool', tr') ->
  releases_ok false ∅ tr' = true.
Proof.
  intros Hfresh. revert pool tr.
  induction ops as [|o ops IH]; intros pool tr Hinv Hok Hrun; cbn in Hrun.
  - by injection Hrun as <- <-.
  - unfold bind in Hrun. destruct (step o pool tr) as [[pool1 tr1]|] eqn:E; [|done].
    eapply IH; [by eapply (step_own_inv alloc align count laws Hfresh)| |done].
    eapply step_releases_ok; [|done..].
    intros i s Hi. cbn. destruct (Z.eqb_spec (hs_data s) 0) as [|Hd]; [done|].
    destruct Hinv as (Hlive & _). by destruct (Hlive _ _ Hi Hd) as [m ->].
Qed.

Lemma run_releases_sized (ops : list op) (pool pool' : list S) (tr tr' : trace) :
  alloc_nonnull alloc -> alloc_fresh alloc ->
  Forall (consistent count) ops ->
  pool_inv pool tr -> releases_ok true ∅ tr = true ->
  run ops pool tr = Some (pool', tr') ->
  releases_ok true ∅ tr' = true.
Proof.
  intros Hnn Hfresh. revert pool tr.
  induction ops as [|o ops IH]; intros pool tr Hc Hinv Hok Hrun; cbn in Hrun.
  - by injection Hrun as <- <-.
  - apply Forall_cons in Hc as [Ho Hc]. unfold bind in Hrun.
    destruct (step o pool tr) as [[pool1 tr1]|] eqn:E; [|done].
    eapply IH; [done|by eapply (step_pool_inv alloc align count laws Hnn Hfresh)| |done].
    eapply step_releases_ok; [|done..].
    intros i s Hi. cbn. destruct Hinv as [Hown _]. destruct (Hown _ _ Hi) as [H0 H1].
    destruct (Z.eqb_spec (hs_data s) 0) as [Hd|Hd].
    + rewrite (H0 Hd). done.
    + rewrite (H1 Hd). cbn. apply Z.eqb_refl.
Qed.

End Releases.

(** ** The heap-backed classes: ownership and releases *)

Lemma pool_own_inv {S : Type} {HS : HeapStorage S} (alloc : allocator) (align : bool)
    (count : Z -> Z -> Z) (ops : list op) (pool : list S) (tr : trace) :
  HeapStorageLaws HS alloc align count ->
  alloc_fresh alloc ->
  run ops [] [] = Some (pool, tr) ->
  own_inv pool tr.
Proof.
  intros laws Hfr Hrun.
  exact (run_own_inv alloc align count laws Hfr ops [] pool [] tr own_inv_nil Hrun).
Qed.

(** X1.  Whatever element counts, rows and columns its operations are
    given, a program over objects of a heap-backed class in which every call
    returns (no allocation fails), with an allocator that gives no buffer
    that is still allocated, keeps every buffer in one hand: the buffer an
    object points to is allocated and not released, and no two objects point
    to the same buffer.  A run in which an allocation fails has no result
    here, and nothing is said of the objects it leaves. *)
Theorem buffers_are_held_apart
    (alloc : allocator) (DontAlign _Rows _Cols _Options : Z)
    (Hfresh : alloc_fresh alloc) (ops : list op) (tr : trace) :
  (forall pool,
     run (HS := Storage_D_D_D_heap alloc DontAlign _Options) ops [] [] = Some (pool, tr) ->
     (forall s, s ∈ pool -> Storage_D_D_D.data s <> 0 ->
        is_Some (blocks tr !! Storage_D_D_D.data s)) /\
     (forall i j a b, pool !! i = Some a -> pool !! j = Some b -> i <> j ->
        Storage_D_D_D.data a <> 0 -> Storage_D_D_D.data a <> Storage_D_D_D.data b)) /\
  (forall pool,
     run (HS := Storage_D_R_D_heap alloc DontAlign _Rows _Options) ops [] []
       = Some (pool, tr) ->
     (forall s, s ∈ pool -> Storage_D_R_D.data s <> 0 ->
        is_Some (blocks tr !! Storage_D_R_D.data s)) /\
     (forall i j a b, pool !! i = Some a -> pool !! j = Some b -> i <> j ->
        Storage_D_R_D.data a <> 0 -> Storage_D_R_D.data a <> Storage_D_R_D.data b)) /\
  (forall pool,
     run (HS := Storage_D_D_C_heap alloc DontAlign _Cols _Options) ops [] []
       = Some (pool, tr) ->
     (forall s, s ∈ pool -> Storage_D_D_C.data s <> 0 ->
        is_Some (blocks tr !! Storage_D_D_C.data s)) /\
     (forall i j a b, pool !! i = Some a -> pool !! j = Some b -> i <> j ->
        Storage_D_D_C.data a <> 0 -> Storage_D_D_C.data a <> Storage_D_D_C.data b)).
Proof.
  split; [|split]; intros pool Hrun.
  - destruct (pool_own_inv alloc _ _ ops pool tr
                (Storage_D_D_D_laws alloc DontAlign _Options) Hfresh Hrun)
      as (Hlive & Hsep & _).
    split; [|exact Hsep]. intros s [i Hi]%list_elem_of_lookup. eauto.
  - destruct (pool_own_inv alloc _ _ ops pool tr
                (Storage_D_R_D_laws alloc DontAlign _Rows _Options) Hfresh Hrun)
      as (Hlive & Hsep & _).
    split; [|exact Hsep]. intros s [i Hi]%list_elem_of_lookup. eauto.
  - destruct (pool_own_inv alloc _ _ ops pool tr
                (Storage_D_D_C_laws alloc DontAlign _Cols _Options) Hfresh Hrun)
      as (Hlive & Hsep & _).
    split; [|exact Hsep]. intros s [i Hi]%list_elem_of_lookup. eauto.
Qed.

(** X2.  Such a program leaks no buffer: every buffer that is allocated and
    not released is the buffer of an object of the pool; once every object is
    destroyed, none is left. *)
Theorem no_buffer_leaks
    (alloc : allocator) (DontAlign _Rows _Cols _Options : Z)
    (Hfresh : alloc_fresh alloc) (ops : list op) (tr : trace)
    (p : Z) (Hp : p <> 0) (Hlive : is_Some (blocks tr !! p)) :
  (forall pool,
     run (HS := Storage_D_D_D_heap alloc DontAlign _Options) ops [] [] = Some (pool, tr) ->
     exists s, s ∈ pool /\ Storage_D_D_D.data s = p) /\
  (forall pool,
     run (HS := Storage_D_R_D_heap alloc DontAlign _Rows _Options) ops [] []
       = Some (pool, tr) ->
     exists s, s ∈ pool /\ Storage_D_R_D.data s = p) /\
  (forall pool,
     run (HS := Storage_D_D_C_heap alloc DontAlign _Cols _Options) ops [] []
       = Some (pool, tr) ->
     exists s, s ∈ pool /\ Storage_D_D_C.data s = p).
Proof.
  split; [|split]; intros pool Hrun.
  - destruct (pool_own_inv alloc _ _ ops pool tr
                (Storage_D_D_D_laws alloc DontAlign _Options) Hfresh Hrun)
      as (_ & _ & Hall).
    destruct (Hall p Hp Hlive) as (i & s & Hi & Hd). exists s.
    split; [|done]. apply list_elem_of_lookup. eauto.
  - destruct (pool_own_inv alloc _ _ ops pool tr
                (Storage_D_R_D_laws alloc DontAlign _Rows _Options) Hfresh Hrun)
      as (_ & _ & Hall).
    destruct (Hall p Hp Hlive) as (i & s & Hi & Hd). exists s.
    split; [|done]. apply list_elem_of_lookup. eauto.
  - destruct (pool_own_inv alloc _ _ ops pool tr
                (Storage_D_D_C_laws alloc DontAlign _Cols _Options) Hfresh Hrun)
      as (_ & _ & Hall).
    destruct (Hall p Hp Hlive) as (i & s & Hi & Hd). exists s.
    split; [|done]. apply list_elem_of_lookup. eauto.
Qed.

(** X3.  Such a program, in which every call returns (no allocation
    fails), releases no buffer twice: each [ei_conditional_aligned_delete]
    call it makes is on the null pointer or on a buffer that is allocated and
    not released at that point.  Nothing is said of a run in which an
    allocation fails. *)
Theorem no_buffer_is_released_twice
    (alloc : allocator) (DontAlign _Rows _Cols _Options : Z)
    (Hfresh : alloc_fresh alloc) (ops : list op) (tr : trace) :
  (forall pool,
     run (HS := Storage_D_D_D_heap alloc DontAlign _Options) ops [] [] = Some (pool, tr) ->
     releases_ok false ∅ tr = true) /\
  (forall pool,
     run (HS := Storage_D_R_D_heap alloc DontAlign _Rows _Options) ops [] []
       = Some (pool, tr) ->
     releases_ok false ∅ tr = true) /\
  (forall pool,
     run (HS := Storage_D_D_C_heap alloc DontAlign _Cols _Options) ops [] []
       = Some (pool, tr) ->
     releases_ok false ∅ tr = true).
Proof.
  split; [|split]; intros pool Hrun.
  - exact (run_releases_live alloc _ _ (Storage_D_D_D_laws alloc DontAlign _Options)
             ops [] pool [] tr Hfresh own_inv_nil eq_refl Hrun).
  - exact (run_releases_live alloc _ _ (Storage_D_R_D_laws alloc DontAlign _Rows _Options)
             ops [] pool [] tr Hfresh own_inv_nil eq_refl Hrun).
  - exact (run_releases_live alloc _ _ (Storage_D_D_C_laws alloc DontAlign _Cols _Options)
             ops [] pool [] tr Hfresh own_inv_nil eq_refl Hrun).
Qed.

(** X4.  When each three-argument construction and each [resize] passes as
    element count the non-negative product of the dimensions the object then
    has, and the allocator gives no null pointer for a positive count and no
    buffer that is still allocated, each release passes the element count its
    buffer was allocated with (zero with the null pointer), and every
    collaborator call of the program carries the [Align] argument of the
    class. *)
Theorem releases_pass_the_allocated_count
    (alloc : allocator) (DontAlign _Rows _Cols _Options : Z)
    (Hnonnull : alloc_nonnull alloc) (Hfresh : alloc_fresh alloc)
    (ops : list op) (tr : trace) :
  (forall pool,
     Forall (consistent (fun r c => int_mul r c)) ops ->
     run (HS := Storage_D_D_D_heap alloc DontAlign _Options) ops [] [] = Some (pool, tr) ->
     releases_ok true ∅ tr = true /\
     Forall (fun e => event_align e = Storage_D_D_D.Align DontAlign _Options) tr) /\
  (forall pool,
     Forall (consistent (fun r c => int_mul _Rows c)) ops ->
     run (HS := Storage_D_R_D_heap alloc DontAlign _Rows _Options) ops [] []
       = Some (pool, tr) ->
     releases_ok true ∅ tr = true /\
     Forall (fun e => event_align e = Storage_D_R_D.Align DontAlign _Options) tr) /\
  (forall pool,
     Forall (consistent (fun r c => int_mul r _Cols)) ops ->
     run (HS := Storage_D_D_C_heap alloc DontAlign _Cols _Options) ops [] []
       = Some (pool, tr) ->
     releases_ok true ∅ tr = true /\
     Forall (fun e => event_align e = Storage_D_D_C.Align DontAlign _Options) tr).
Proof.
  split; [|split]; intros pool Hc Hrun.
  - pose proof (Storage_D_D_D_laws alloc DontAlign _Options) as laws. split.
    + exact (run_releases_sized alloc _ _ laws ops [] pool [] tr Hnonnull Hfresh Hc
               (pool_inv_nil []) eq_refl Hrun).
    + exact (run_events_align alloc _ _ laws ops [] pool [] tr (Forall_nil_2 _) Hrun).
  - pose proof (Storage_D_R_D_laws alloc DontAlign _Rows _Options) as laws. split.
    + exact (run_releases_sized alloc _ _ laws ops [] pool [] tr Hnonnull Hfresh Hc
               (pool_inv_nil []) eq_refl Hrun).
    + exact (run_events_align alloc _ _ laws ops [] pool [] tr (Forall_nil_2 _) Hrun).
  - pose proof (Storage_D_D_C_laws alloc DontAlign _Cols _Options) as laws. split.
    + exact (run_releases_sized alloc _ _ laws ops [] pool [] tr Hnonnull Hfresh Hc
               (pool_inv_nil []) eq_refl Hrun).
    + exact (run_events_align alloc _ _ laws ops [] pool [] tr (Forall_nil_2 _) Hrun).
Qed.

(** What the careless program leads to. *)
Lemma careless_run :
  run (HS := Storage_D_D_D_heap bump 2 0) careless_ops [] []
  = Some (careless_pool, careless_trace).
Proof. vm_compute. reflexivity. Qed.

(** X1 on the careless program. *)
Lemma buffers_are_held_apart_witness :
  alloc_fresh bump /\
  run (HS := Storage_D_D_D_heap bump 2 0) careless_ops [] []
    = Some (careless_pool, careless_trace) /\
  (forall s, s ∈ careless_pool -> Storage_D_D_D.data s <> 0 ->
     is_Some (blocks careless_trace !! Storage_D_D_D.data s)) /\
  (forall i j a b, careless_pool !! i = Some a -> careless_pool !! j = Some b -> i <> j ->
     Storage_D_D_D.data a <> 0 -> Storage_D_D_D.data a <> Storage_D_D_D.data b).
Proof.
  split; [exact bump_fresh|]. split; [exact careless_run|].
  exact (proj1 (buffers_are_held_apart bump 2 0 0 0 bump_fresh careless_ops careless_trace)
           careless_pool careless_run).
Defined.

(** X2 on the careless program, for the buffer at 48. *)
Lemma no_buffer_leaks_witness :
  alloc_fresh bump /\ 48 <> 0 /\ is_Some (blocks careless_trace !! 48) /\
  run (HS := Storage_D_D_D_heap bump 2 0) careless_ops [] []
    = Some (careless_pool, careless_trace) /\
  exists s, s ∈ careless_pool /\ Storage_D_D_D.data s = 48.
Proof.
  assert (48 <> 0) as Hp by discriminate.
  assert (is_Some (blocks careless_trace !! 48)) as Hlive by (exists 3; vm_compute; reflexivity).
  split; [exact bump_fresh|]. split; [exact Hp|]. split; [exact Hlive|].
  split; [exact careless_run|].
  exact (proj1 (no_buffer_leaks bump 2 0 0 0 bump_fresh careless_ops careless_trace
                  48 Hp Hlive) careless_pool careless_run).
Defined.

(** X3 on the careless program. *)
Lemma no_buffer_is_released_twice_witness :
  alloc_fresh bump /\
  run (HS := Storage_D_D_D_heap bump 2 0) careless_ops [] []
    = Some (careless_pool, careless_trace) /\
  releases_ok false ∅ careless_trace = true.
Proof.
  split; [exact bump_fresh|]. split; [exact careless_run|].
  exact (proj1 (no_buffer_is_released_twice bump 2 0 0 0 bump_fresh careless_ops
                  careless_trace) careless_pool careless_run).
Defined.

(** X4 on a program whose element counts agree with its shapes. *)
Lemma releases_pass_the_allocated_count_witness :
  let ops := [Construct 6 2 3; Resize 0 6 3 2; ConstructDefault; Swap 0 1;
              Resize 1 0 0 0; Construct 4 2 2; Resize 0 8 2 4; Destroy 1] in
  let tr := [EvNew true 6 16; EvDelete true 16 6; EvNew true 4 32;
             EvDelete true 0 0; EvNew true 8 48; EvDelete true 0 0] in
  alloc_nonnull bump /\ alloc_fresh bump /\
  Forall (consistent (fun r c => int_mul r c)) ops /\
  (exists pool, run (HS := Storage_D_D_D_heap bump 2 0) ops [] [] = Some (pool, tr)) /\
  releases_ok true ∅ tr = true /\
  Forall (fun e => event_align e = Storage_D_D_D.Align 2 0) tr.
Proof.
  intros ops tr.
  assert (Forall (consistent (fun r c => int_mul r c)) ops) as Hc by (subst ops; forall_ops).
  split; [exact bump_nonnull|]. split; [exact bump_fresh|]. split; [exact Hc|].
  split; [eexists; vm_compute; reflexivity|].
  eapply (proj1 (releases_pass_the_allocated_count bump 2 0 0 0 bump_nonnull bump_fresh
                   ops tr)); [exact Hc|].
  vm_compute. reflexivity.
Defined.

(** A release with a wrong count is in the careless trace: the buffer of 6
    elements at 16 is released as one of 4. *)
Example careless_trace_is_not_sized : releases_ok true ∅ careless_trace = false.
Proof. vm_compute. reflexivity. Qed.

(** ** The dimensions after construction and [resize] *)

Lemma last_cons {A : Type} (x d : A) (l : list A) : List.last (x :: l) d = List.last l x.
Proof.
  revert x d. induction l as [|y l IH]; intros x d; [done|].
  change (List.last (x :: y :: l) d) with (List.last (y :: l) d).
  rewrite IH. symmetry. apply IH.
Qed.

Lemma resize_all_last {S A : Type} (resize : Z -> Z -> Z -> S -> S)
    (dims : S -> A) (f : Z * Z * Z -> A) :
  (forall size rows cols s, dims (resize size rows cols s) = f (size, rows, cols)) ->
  forall calls first s,
    dims s = f first ->
    dims (resize_all resize calls s) = f (last_request first calls).
Proof.
  intros Hf calls. unfold resize_all, last_request.
  induction calls as [|[[n r] c] calls IH]; intros first s Hs; cbn [foldl]; [done|].
  rewrite last_cons. apply IH. apply Hf.
Qed.

Lemma hs_resize_all_last {S A : Type} {HS : HeapStorage S}
    (dims : S -> A) (f : Z * Z * Z -> A) :
  (forall size rows cols s tr s' tr',
     hs_resize size rows cols s tr = Some (s', tr') -> dims s' = f (size, rows, cols)) ->
  forall calls first s tr s' tr',
    hs_resize_all calls s tr = Some (s', tr') ->
    dims s = f first ->
    dims s' = f (last_request first calls).
Proof.
  intros Hf calls. unfold last_request.
  induction calls as [|[[n r] c] calls IH]; intros first s tr s' tr' Hrun Hs; cbn in Hrun.
  - unfold ret in Hrun. by injection Hrun as <- <-.
  - unfold bind in Hrun. destruct (hs_resize n r c s tr) as [[s1 tr1]|] eqn:E; [|done].
    rewrite last_cons. eapply IH; [done|]. by eapply Hf.
Qed.

Lemma Storage_D_D_D_resize_dims (alloc : allocator) (DontAlign _Options : Z)
    (size rows cols : Z) (s s' : Storage_D_D_D.ei_matrix_storage) (tr tr' : trace) :
  Storage_D_D_D.resize alloc DontAlign _Options size rows cols s tr = Some (s', tr') ->
  (Storage_D_D_D.rows s', Storage_D_D_D.cols s') = (rows, cols).
Proof.
  unfold Storage_D_D_D.resize. unfold_M.
  destruct (negb _); [|by intros [= <- <-]].
  destruct (negb _); [|by intros [= <- <-]].
  destruct (alloc _ _ size); [|done]. by intros [= <- <-].
Qed.

Lemma Storage_D_R_D_resize_dims (alloc : allocator) (DontAlign _Rows _Options : Z)
    (size rows cols : Z) (s s' : Storage_D_R_D.ei_matrix_storage) (tr tr' : trace) :
  Storage_D_R_D.resize alloc DontAlign _Rows _Options size rows cols s tr = Some (s', tr') ->
  Storage_D_R_D.cols s' = cols.
Proof.
  unfold Storage_D_R_D.resize. unfold_M.
  destruct (negb _); [|by intros [= <- <-]].
  destruct (negb _); [|by intros [= <- <-]].
  destruct (alloc _ _ size); [|done]. by intros [= <- <-].
Qed.

Lemma Storage_D_D_C_resize_dims (alloc : allocator) (DontAlign _Cols _Options : Z)
    (size rows cols : Z) (s s' : Storage_D_D_C.ei_matrix_storage) (tr tr' : trace) :
  Storage_D_D_C.resize alloc DontAlign _Cols _Options size rows cols s tr = Some (s', tr') ->
  Storage_D_D_C.rows s' = rows.
Proof.
  unfold Storage_D_D_C.resize. unfold_M.
  destruct (negb _); [|by intros [= <- <-]].
  destruct (negb _); [|by intros [= <- <-]].
  destruct (alloc _ _ size); [|done]. by intros [= <- <-].
Qed.

(** X5.  After a three-argument construction and any sequence of [resize]
    calls that return, each dynamic dimension of an object is the one of the
    last request (the construction counts as the first), whatever element
    counts were passed; a fixed dimension is its template argument. *)
Theorem dimensions_are_the_last_request
    (T : Type) (alloc : allocator) (cfg : build)
    (DontAlign sizeof_T Size _Rows _Cols _Options : Z)
    (n r c : Z) (calls : list (Z * Z * Z)) :
  let rows_asked := (last_request (n, r, c) calls).1.2 in
  let cols_asked := (last_request (n, r, c) calls).2 in
  (forall pl s,
     Storage_S_D_D.ctor3 T DontAlign sizeof_T cfg Size _Options n r c pl = Some s ->
     Storage_S_D_D.rows T (resize_all (Storage_S_D_D.resize T) calls s) = rows_asked /\
     Storage_S_D_D.cols T (resize_all (Storage_S_D_D.resize T) calls s) = cols_asked) /\
  (forall pl s,
     Storage_S_D_C.ctor3 T DontAlign sizeof_T cfg Size _Options n r c pl = Some s ->
     Storage_S_D_C.rows T (resize_all (Storage_S_D_C.resize T) calls s) = rows_asked /\
     Storage_S_D_C.cols T _Cols (resize_all (Storage_S_D_C.resize T) calls s) = _Cols) /\
  (forall pl s,
     Storage_S_R_D.ctor3 T DontAlign sizeof_T cfg Size _Options n r c pl = Some s ->
     Storage_S_R_D.rows T _Rows (resize_all (Storage_S_R_D.resize T) calls s) = _Rows /\
     Storage_S_R_D.cols T (resize_all (Storage_S_R_D.resize T) calls s) = cols_asked) /\
  (forall tr s tr1 s' tr',
     Storage_D_D_D.ctor3 alloc DontAlign _Options n r c tr = Some (s, tr1) ->
     hs_resize_all (HS := Storage_D_D_D_heap alloc DontAlign _Options) calls s tr1
       = Some (s', tr') ->
     Storage_D_D_D.rows s' = rows_asked /\ Storage_D_D_D.cols s' = cols_asked) /\
  (forall tr s tr1 s' tr',
     Storage_D_R_D.ctor3 alloc DontAlign _Options n r c tr = Some (s, tr1) ->
     hs_resize_all (HS := Storage_D_R_D_heap alloc DontAlign _Rows _Options) calls s tr1
       = Some (s', tr') ->
     Storage_D_R_D.rows _Rows = _Rows /\ Storage_D_R_D.cols s' = cols_asked) /\
  (forall tr s tr1 s' tr',
     Storage_D_D_C.ctor3 alloc DontAlign _Options n r c tr = Some (s, tr1) ->
     hs_resize_all (HS := Storage_D_D_C_heap alloc DontAlign _Cols _Options) calls s tr1
       = Some (s', tr') ->
     Storage_D_D_C.rows s' = rows_asked /\ Storage_D_D_C.cols _Cols = _Cols).
Proof.
  cbn zeta. split; [|split; [|split; [|split; [|split]]]].
  - intros pl s. unfold Storage_S_D_D.ctor3. ctor_succeeds.
    split.
    + by apply (resize_all_last _ (Storage_S_D_D.rows T) (fun q => q.1.2)).
    + by apply (resize_all_last _ (Storage_S_D_D.cols T) (fun q => q.2)).
  - intros pl s. unfold Storage_S_D_C.ctor3. ctor_succeeds.
    split; [|done].
    by apply (resize_all_last _ (Storage_S_D_C.rows T) (fun q => q.1.2)).
  - intros pl s. unfold Storage_S_R_D.ctor3. ctor_succeeds.
    split; [done|].
    by apply (resize_all_last _ (Storage_S_R_D.cols T) (fun q => q.2)).
  - intros tr s tr1 s' tr'. unfold Storage_D_D_D.ctor3. unfold_M.
    destruct (alloc tr _ n) as [p|]; [|done]. intros [= <- <-] Hrun.
    split.
    + eapply (hs_resize_all_last (HS := Storage_D_D_D_heap alloc DontAlign _Options)
                Storage_D_D_D.rows (fun q => q.1.2)) with (first := (n, r, c));
        [|exact Hrun|reflexivity].
      intros * E. by apply Storage_D_D_D_resize_dims in E as [= -> _].
    + eapply (hs_resize_all_last (HS := Storage_D_D_D_heap alloc DontAlign _Options)
                Storage_D_D_D.cols (fun q => q.2)) with (first := (n, r, c));
        [|exact Hrun|reflexivity].
      intros * E. by apply Storage_D_D_D_resize_dims in E as [= _ ->].
  - intros tr s tr1 s' tr'. unfold Storage_D_R_D.ctor3. unfold_M.
    destruct (alloc tr _ n) as [p|]; [|done]. intros [= <- <-] Hrun.
    split; [done|].
    eapply (hs_resize_all_last (HS := Storage_D_R_D_heap alloc DontAlign _Rows _Options)
              Storage_D_R_D.cols (fun q => q.2)) with (first := (n, r, c));
      [|exact Hrun|reflexivity].
    intros * E. by apply Storage_D_R_D_resize_dims in E.
  - intros tr s tr1 s' tr'. unfold Storage_D_D_C.ctor3. unfold_M.
    destruct (alloc tr _ n) as [p|]; [|done]. intros [= <- <-] Hrun.
    split; [|done].
    eapply (hs_resize_all_last (HS := Storage_D_D_C_heap alloc DontAlign _Cols _Options)
              Storage_D_D_C.rows (fun q => q.1.2)) with (first := (n, r, c));
      [|exact Hrun|reflexivity].
    intros * E. by apply Storage_D_D_C_resize_dims in E.
Qed.

(** X5 on an inline array placed at 32 and on a buffer of the allocator of
    the examples. *)
Lemma dimensions_are_the_last_request_witness :
  let cfg := {| EIGEN_DISABLE_UNALIGNED_ARRAY_ASSERT := false; EIGEN_NO_DEBUG := false |} in
  let pl := {| place_addr := 32; place_elems := [7; 7; 7; 7] |} in
  let s := {| Storage_S_D_D.m_data := array_at pl; Storage_S_D_D.m_rows := 2;
              Storage_S_D_D.m_cols := 2 |} in
  let calls := [(100, 1, 2); (0, 4, 1)] in
  Storage_S_D_D.ctor3 Z 2 4 cfg 4 0 4 2 2 pl = Some s /\
  Storage_S_D_D.rows Z (resize_all (Storage_S_D_D.resize Z) calls s) = 4 /\
  Storage_S_D_D.cols Z (resize_all (Storage_S_D_D.resize Z) calls s) = 1.
Proof.
  intros cfg pl s calls.
  assert (Storage_S_D_D.ctor3 Z 2 4 cfg 4 0 4 2 2 pl = Some s) as Hs by reflexivity.
  split; [exact Hs|].
  exact (proj1 (dimensions_are_the_last_request Z bump cfg 2 4 4 0 0 0 4 2 2 calls)
           pl s Hs).
Defined.

(** ** Construction without the assertion *)

Lemma ei_matrix_array_ctor_unasserted {T : Type} (cfg : build)
    (DontAlign sizeof_T Size _Options : Z) (pl : placement T) :
  Z.land _Options DontAlign <> 0 \/ (Size * sizeof_T) mod 16 <> 0 \/
  EIGEN_DISABLE_UNALIGNED_ARRAY_ASSERT cfg = true \/ EIGEN_NO_DEBUG cfg = true ->
  ei_matrix_array_ctor cfg (Alignment DontAlign sizeof_T Size _Options) pl
  = Some (array_at pl).
Proof.
  intros H. destruct (ei_matrix_array_ctor cfg _ pl) as [a|] eqn:E.
  - by apply ei_matrix_array_ctor_Some in E as ->.
  - apply ei_matrix_array_ctor_None in E as [Hal E].
    apply Alignment_16 in Hal as [Hd Hs].
    unfold EIGEN_MAKE_UNALIGNED_ARRAY_ASSERT, ei_assert in E.
    destruct H as [H | [H | [H | H]]]; [done|done|by rewrite H in E|].
    rewrite H in E. by destruct (EIGEN_DISABLE_UNALIGNED_ARRAY_ASSERT cfg).
Qed.

(** X6.  When [DontAlign] is among the options, or [Size * sizeof(T)] is no
    multiple of 16, or the build defines
    [EIGEN_DISABLE_UNALIGNED_ARRAY_ASSERT] or has no assertions, every
    constructor of each of the four classes with an inline array returns, at
    whatever address the object is placed, with [data()] that address. *)
Theorem construction_without_assertion
    (T : Type) (cfg : build) (DontAlign sizeof_T Size _Options : Z)
    (Hoff : Z.land _Options DontAlign <> 0 \/ (Size * sizeof_T) mod 16 <> 0 \/
            EIGEN_DISABLE_UNALIGNED_ARRAY_ASSERT cfg = true \/ EIGEN_NO_DEBUG cfg = true)
    (tag : ei_constructor_without_unaligned_array_assert) (n r c : Z) (pl : placement T) :
  (exists s1 s2 s3,
     Storage_S_R_C.ctor T DontAlign sizeof_T cfg Size _Options pl = Some s1 /\
     Storage_S_R_C.ctor_skip T DontAlign sizeof_T Size _Options tag pl = Some s2 /\
     Storage_S_R_C.ctor3 T DontAlign sizeof_T cfg Size _Options n r c pl = Some s3 /\
     Storage_S_R_C.data T s1 = place_addr pl /\ Storage_S_R_C.data T s2 = place_addr pl /\
     Storage_S_R_C.data T s3 = place_addr pl) /\
  (exists s1 s2 s3,
     Storage_S_D_D.ctor T DontAlign sizeof_T cfg Size _Options pl = Some s1 /\
     Storage_S_D_D.ctor_skip T DontAlign sizeof_T Size _Options tag pl = Some s2 /\
     Storage_S_D_D.ctor3 T DontAlign sizeof_T cfg Size _Options n r c pl = Some s3 /\
     Storage_S_D_D.data T s1 = place_addr pl /\ Storage_S_D_D.data T s2 = place_addr pl /\
     Storage_S_D_D.data T s3 = place_addr pl) /\
  (exists s1 s2 s3,
     Storage_S_D_C.ctor T DontAlign sizeof_T cfg Size _Options pl = Some s1 /\
     Storage_S_D_C.ctor_skip T DontAlign sizeof_T Size _Options tag pl = Some s2 /\
     Storage_S_D_C.ctor3 T DontAlign sizeof_T cfg Size _Options n r c pl = Some s3 /\
     Storage_S_D_C.data T s1 = place_addr pl /\ Storage_S_D_C.data T s2 = place_addr pl /\
     Storage_S_D_C.data T s3 = place_addr pl) /\
  (exists s1 s2 s3,
     Storage_S_R_D.ctor T DontAlign sizeof_T cfg Size _Options pl = Some s1 /\
     Storage_S_R_D.ctor_skip T DontAlign sizeof_T Size _Options tag pl = Some s2 /\
     Storage_S_R_D.ctor3 T DontAlign sizeof_T cfg Size _Options n r c pl = Some s3 /\
     Storage_S_R_D.data T s1 = place_addr pl /\ Storage_S_R_D.data T s2 = place_addr pl /\
     Storage_S_R_D.data T s3 = place_addr pl).
Proof.
  pose proof (ei_matrix_array_ctor_unasserted cfg DontAlign sizeof_T Size _Options pl Hoff)
    as E.
  split; [|split; [|split]].
  - unfold Storage_S_R_C.ctor, Storage_S_R_C.ctor_skip, Storage_S_R_C.ctor3.
    rewrite E. cbn. eexists _, _, _. repeat split.
  - unfold Storage_S_D_D.ctor, Storage_S_D_D.ctor_skip, Storage_S_D_D.ctor3.
    rewrite E. cbn. eexists _, _, _. repeat split.
  - unfold Storage_S_D_C.ctor, Storage_S_D_C.ctor_skip, Storage_S_D_C.ctor3.
    rewrite E. cbn. eexists _, _, _. repeat split.
  - unfold Storage_S_R_D.ctor, Storage_S_R_D.ctor_skip, Storage_S_R_D.ctor3.
    rewrite E. cbn. eexists _, _, _. repeat split.
Qed.

(** X6 on three 4-byte elements placed at address 8. *)
Lemma construction_without_assertion_witness :
  let cfg := {| EIGEN_DISABLE_UNALIGNED_ARRAY_ASSERT := false; EIGEN_NO_DEBUG := false |} in
  let off := {| place_addr := 8; place_elems := [7; 7; 7] |} in
  (3 * 4) mod 16 <> 0 /\
  exists s, Storage_S_D_D.ctor Z 2 4 cfg 3 0 off = Some s /\ Storage_S_D_D.data Z s = 8.
Proof.
  intros cfg off.
  assert ((3 * 4) mod 16 <> 0) as H by discriminate.
  split; [exact H|].
  destruct (construction_without_assertion Z cfg 2 4 3 0
              (or_intror (or_introl H)) without_unaligned_array_assert 0 0 0 off)
    as (_ & (s1 & s2 & s3 & Hs & _ & _ & Hd & _ & _) & _).
  exists s1. split; [exact Hs | exact Hd].
Defined.

(** ** [resize] again, [resize] to nothing, and failure *)

(** X7.  After a three-argument construction or a [resize] whose element
    count is the product of the dimensions it asks for, a [resize] with the
    same element count makes no collaborator call and keeps the buffer,
    whatever rows and columns it asks for. *)
Theorem resize_with_the_same_count_keeps_the_buffer
    (alloc : allocator) (DontAlign _Rows _Cols _Options : Z)
    (n r c r' c' : Z) (tr tr1 : trace) :
  (forall s s1,
     n = int_mul r c ->
     Storage_D_D_D.ctor3 alloc DontAlign _Options n r c tr = Some (s1, tr1) \/
     Storage_D_D_D.resize alloc DontAlign _Options n r c s tr = Some (s1, tr1) ->
     Storage_D_D_D.resize alloc DontAlign _Options n r' c' s1 tr1
     = Some ({| Storage_D_D_D.m_data := Storage_D_D_D.data s1;
                Storage_D_D_D.m_rows := r'; Storage_D_D_D.m_cols := c' |}, tr1)) /\
  (forall s s1,
     n = int_mul _Rows c ->
     Storage_D_R_D.ctor3 alloc DontAlign _Options n r c tr = Some (s1, tr1) \/
     Storage_D_R_D.resize alloc DontAlign _Rows _Options n r c s tr = Some (s1, tr1) ->
     Storage_D_R_D.resize alloc DontAlign _Rows _Options n r' c' s1 tr1
     = Some ({| Storage_D_R_D.m_data := Storage_D_R_D.data s1;
                Storage_D_R_D.m_cols := c' |}, tr1)) /\
  (forall s s1,
     n = int_mul r _Cols ->
     Storage_D_D_C.ctor3 alloc DontAlign _Options n r c tr = Some (s1, tr1) \/
     Storage_D_D_C.resize alloc DontAlign _Cols _Options n r c s tr = Some (s1, tr1) ->
     Storage_D_D_C.resize alloc DontAlign _Cols _Options n r' c' s1 tr1
     = Some ({| Storage_D_D_C.m_data := Storage_D_D_C.data s1;
                Storage_D_D_C.m_rows := r' |}, tr1)).
Proof.
  split; [|split]; intros s s1 Hn Hs1.
  - apply Storage_D_D_D_resize_cases.
    assert ((Storage_D_D_D.rows s1, Storage_D_D_D.cols s1) = (r, c)) as [= -> ->]; [|done].
    destruct Hs1 as [Hs1 | Hs1]; [|by eapply Storage_D_D_D_resize_dims].
    revert Hs1. unfold Storage_D_D_D.ctor3. unfold_M.
    destruct (alloc tr _ n); [|done]. by intros [= <- <-].
  - apply Storage_D_R_D_resize_cases.
    assert (Storage_D_R_D.cols s1 = c) as ->; [|done].
    destruct Hs1 as [Hs1 | Hs1]; [|by eapply Storage_D_R_D_resize_dims].
    revert Hs1. unfold Storage_D_R_D.ctor3. unfold_M.
    destruct (alloc tr _ n); [|done]. by intros [= <- <-].
  - apply Storage_D_D_C_resize_cases.
    assert (Storage_D_D_C.rows s1 = r) as ->; [|done].
    destruct Hs1 as [Hs1 | Hs1]; [|by eapply Storage_D_D_C_resize_dims].
    revert Hs1. unfold Storage_D_D_C.ctor3. unfold_M.
    destruct (alloc tr _ n); [|done]. by intros [= <- <-].
Qed.

(** X7 on a 2 x 3 matrix resized to 3 x 2. *)
Lemma resize_with_the_same_count_witness :
  let s1 := {| Storage_D_D_D.m_data := 16; Storage_D_D_D.m_rows := 2;
               Storage_D_D_D.m_cols := 3 |} in
  6 = int_mul 2 3 /\
  Storage_D_D_D.ctor3 bump 2 0 6 2 3 [] = Some (s1, [EvNew true 6 16]) /\
  Storage_D_D_D.resize bump 2 0 6 3 2 s1 [EvNew true 6 16]
  = Some ({| Storage_D_D_D.m_data := 16; Storage_D_D_D.m_rows := 3;
             Storage_D_D_D.m_cols := 2 |}, [EvNew true 6 16]).
Proof.
  intros s1.
  assert (6 = int_mul 2 3) as Hn by reflexivity.
  assert (Storage_D_D_D.ctor3 bump 2 0 6 2 3 [] = Some (s1, [EvNew true 6 16])) as Hs
    by reflexivity.
  split; [exact Hn|]. split; [exact Hs|].
  exact (proj1 (resize_with_the_same_count_keeps_the_buffer bump 2 0 0 0 6 2 3 3 2 []
                  [EvNew true 6 16]) s1 s1 Hn (or_introl Hs)).
Defined.

(** X8.  [resize] to zero elements always returns and acquires nothing.
    When the product of the stored dimensions is not zero it releases the
    buffer and leaves a null pointer; when that product is already zero it
    makes no call and keeps the pointer, null or not. *)
Theorem resize_to_zero
    (alloc : allocator) (DontAlign _Rows _Cols _Options rows cols : Z) (tr : trace) :
  (forall s : Storage_D_D_D.ei_matrix_storage,
     let old := int_mul (Storage_D_D_D.rows s) (Storage_D_D_D.cols s) in
     Storage_D_D_D.resize alloc DontAlign _Options 0 rows cols s tr
     = Some ({| Storage_D_D_D.m_data := if old =? 0 then Storage_D_D_D.data s else 0;
                Storage_D_D_D.m_rows := rows; Storage_D_D_D.m_cols := cols |},
             if old =? 0 then tr
             else tr ++ [EvDelete (Storage_D_D_D.Align DontAlign _Options)
                           (Storage_D_D_D.data s) old])) /\
  (forall s : Storage_D_R_D.ei_matrix_storage,
     let old := int_mul (Storage_D_R_D.rows _Rows) (Storage_D_R_D.cols s) in
     Storage_D_R_D.resize alloc DontAlign _Rows _Options 0 rows cols s tr
     = Some ({| Storage_D_R_D.m_data := if old =? 0 then Storage_D_R_D.data s else 0;
                Storage_D_R_D.m_cols := cols |},
             if old =? 0 then tr
             else tr ++ [EvDelete (Storage_D_R_D.Align DontAlign _Options)
                           (Storage_D_R_D.data s) old])) /\
  (forall s : Storage_D_D_C.ei_matrix_storage,
     let old := int_mul (Storage_D_D_C.rows s) (Storage_D_D_C.cols _Cols) in
     Storage_D_D_C.resize alloc DontAlign _Cols _Options 0 rows cols s tr
     = Some ({| Storage_D_D_C.m_data := if old =? 0 then Storage_D_D_C.data s else 0;
                Storage_D_D_C.m_rows := rows |},
             if old =? 0 then tr
             else tr ++ [EvDelete (Storage_D_D_C.Align DontAlign _Options)
                           (Storage_D_D_C.data s) old])).
Proof.
  split; [|split]; intros s; cbn zeta.
  - destruct (Storage_D_D_D_resize_cases alloc DontAlign _Options 0 rows cols s tr)
      as (Hsame & Hzero & _).
    destruct (Z.eqb_spec (int_mul (Storage_D_D_D.rows s) (Storage_D_D_D.cols s)) 0)
      as [e|ne]; [by apply Hsame|apply Hzero; congruence].
  - destruct (Storage_D_R_D_resize_cases alloc DontAlign _Rows _Options 0 rows cols s tr)
      as (Hsame & Hzero & _).
    destruct (Z.eqb_spec (int_mul (Storage_D_R_D.rows _Rows) (Storage_D_R_D.cols s)) 0)
      as [e|ne]; [by apply Hsame|apply Hzero; congruence].
  - destruct (Storage_D_D_C_resize_cases alloc DontAlign _Cols _Options 0 rows cols s tr)
      as (Hsame & Hzero & _).
    destruct (Z.eqb_spec (int_mul (Storage_D_D_C.rows s) (Storage_D_D_C.cols _Cols)) 0)
      as [e|ne]; [by apply Hsame|apply Hzero; congruence].
Qed.

(** X9.  The three-argument constructor fails exactly when the allocation
    fails.  [resize] fails exactly when the element count differs from the
    product of the stored dimensions, is not zero, and the allocation that
    follows the release fails.  The destructor always returns. *)
Theorem failure_is_allocation_failure
    (alloc : allocator) (DontAlign _Rows _Cols _Options n r c : Z) (tr : trace) :
  ((Storage_D_D_D.ctor3 alloc DontAlign _Options n r c tr = None
    <-> alloc tr (Storage_D_D_D.Align DontAlign _Options) n = None) /\
   forall s,
     let old := int_mul (Storage_D_D_D.rows s) (Storage_D_D_D.cols s) in
     let al := Storage_D_D_D.Align DontAlign _Options in
     (Storage_D_D_D.resize alloc DontAlign _Options n r c s tr = None
      <-> n <> old /\ n <> 0 /\
          alloc (tr ++ [EvDelete al (Storage_D_D_D.data s) old]) al n = None) /\
     is_Some (Storage_D_D_D.dtor DontAlign _Options s tr)) /\
  ((Storage_D_R_D.ctor3 alloc DontAlign _Options n r c tr = None
    <-> alloc tr (Storage_D_R_D.Align DontAlign _Options) n = None) /\
   forall s,
     let old := int_mul (Storage_D_R_D.rows _Rows) (Storage_D_R_D.cols s) in
     let al := Storage_D_R_D.Align DontAlign _Options in
     (Storage_D_R_D.resize alloc DontAlign _Rows _Options n r c s tr = None
      <-> n <> old /\ n <> 0 /\
          alloc (tr ++ [EvDelete al (Storage_D_R_D.data s) old]) al n = None) /\
     is_Some (Storage_D_R_D.dtor DontAlign _Rows _Options s tr)) /\
  ((Storage_D_D_C.ctor3 alloc DontAlign _Options n r c tr = None
    <-> alloc tr (Storage_D_D_C.Align DontAlign _Options) n = None) /\
   forall s,
     let old := int_mul (Storage_D_D_C.rows s) (Storage_D_D_C.cols _Cols) in
     let al := Storage_D_D_C.Align DontAlign _Options in
     (Storage_D_D_C.resize alloc DontAlign _Cols _Options n r c s tr = None
      <-> n <> old /\ n <> 0 /\
          alloc (tr ++ [EvDelete al (Storage_D_D_C.data s) old]) al n = None) /\
     is_Some (Storage_D_D_C.dtor DontAlign _Cols _Options s tr)).
Proof.
  split; [|split]; (split; [|intros s; cbn zeta; split; [|by eexists]]).
  - unfold Storage_D_D_D.ctor3. unfold_M. by destruct (alloc tr _ n).
  - destruct (Storage_D_D_D_resize_cases alloc DontAlign _Options n r c s tr)
      as (Hsame & Hzero & Hnew).
    destruct (decide (n = int_mul (Storage_D_D_D.rows s) (Storage_D_D_D.cols s)))
      as [e|ne]; [rewrite (Hsame e); split; [done|tauto]|].
    destruct (decide (n = 0)) as [z|nz]; [rewrite (Hzero ne z); split; [done|tauto]|].
    rewrite (Hnew ne nz). destruct (alloc _ _ n); split; [done|by intros (_ & _ & ?)|done..].
  - unfold Storage_D_R_D.ctor3. unfold_M. by destruct (alloc tr _ n).
  - destruct (Storage_D_R_D_resize_cases alloc DontAlign _Rows _Options n r c s tr)
      as (Hsame & Hzero & Hnew).
    destruct (decide (n = int_mul (Storage_D_R_D.rows _Rows) (Storage_D_R_D.cols s)))
      as [e|ne]; [rewrite (Hsame e); split; [done|tauto]|].
    destruct (decide (n = 0)) as [z|nz]; [rewrite (Hzero ne z); split; [done|tauto]|].
    rewrite (Hnew ne nz). destruct (alloc _ _ n); split; [done|by intros (_ & _ & ?)|done..].
  - unfold Storage_D_D_C.ctor3. unfold_M. by destruct (alloc tr _ n).
  - destruct (Storage_D_D_C_resize_cases alloc DontAlign _Cols _Options n r c s tr)
      as (Hsame & Hzero & Hnew).
    destruct (decide (n = int_mul (Storage_D_D_C.rows s) (Storage_D_D_C.cols _Cols)))
      as [e|ne]; [rewrite (Hsame e); split; [done|tauto]|].
    destruct (decide (n = 0)) as [z|nz]; [rewrite (Hzero ne z); split; [done|tauto]|].
    rewrite (Hnew ne nz). destruct (alloc _ _ n); split; [done|by intros (_ & _ & ?)|done..].
Qed.

(** ** The elements of two inline arrays under [resize] and [swap] *)

Lemma count_swaps_snoc (ops : list op2) (o : op2) :
  count_swaps (ops ++ [o]) = (if is_swap o then Datatypes.S (count_swaps ops) else count_swaps ops).
Proof.
  unfold count_swaps. rewrite filter_app, length_app.
  destruct o; cbn; case_decide; try done; cbn; lia.
Qed.

Lemma even_succ_negb (n : nat) : Nat.even (Datatypes.S n) = negb (Nat.even n).
Proof. rewrite Nat.even_succ. symmetry. apply Nat.negb_even. Qed.

Lemma run2_elems {S A : Type} (resize : Z -> Z -> Z -> S -> S) (swap : S -> S -> S * S)
    (elems : S -> A) :
  (forall size rows cols s, elems (resize size rows cols s) = elems s) ->
  (forall a b, elems (swap a b).1 = elems b /\ elems (swap a b).2 = elems a) ->
  forall ops a b,
    (elems (run2 resize swap ops (a, b)).1, elems (run2 resize swap ops (a, b)).2)
    = if Nat.even (count_swaps ops) then (elems a, elems b) else (elems b, elems a).
Proof.
  intros Hr Hs ops a b. unfold run2.
  induction ops as [|o ops IH] using rev_ind; [done|].
  rewrite foldl_app, count_swaps_snoc. cbn [foldl].
  destruct (foldl (step2 resize swap) (a, b) ops) as [a1 b1]. cbn [fst snd] in IH.
  destruct o as [n r c | n r c | | ]; cbn [step2 is_swap fst snd]; cbv iota.
  - by rewrite Hr.
  - by rewrite Hr.
  - destruct (Hs a1 b1) as [-> ->]. rewrite even_succ_negb.
    destruct (Nat.even (count_swaps ops)); cbn; by injection IH as -> ->.
  - destruct (Hs b1 a1) as [H1 H2]. destruct (swap b1 a1) as [b2 a2]. cbn [fst snd] in *.
    rewrite H1, H2, even_succ_negb.
    destruct (Nat.even (count_swaps ops)); cbn; by injection IH as -> ->.
Qed.

(** X10.  In a program that resizes and swaps two objects of a class with
    an inline array, however the calls are ordered, no [resize] touches an
    element and every [swap] exchanges all of them: after an even number of
    swaps each object has its own elements, after an odd number the
    other's. *)
Theorem inline_elements_follow_swaps (T : Type) (ops : list op2) :
  (forall a b : Storage_S_R_C.ei_matrix_storage T,
     let ab := run2 (Storage_S_R_C.resize T) (Storage_S_R_C.swap T) ops (a, b) in
     (array (Storage_S_R_C.m_data T ab.1), array (Storage_S_R_C.m_data T ab.2))
     = if Nat.even (count_swaps ops)
       then (array (Storage_S_R_C.m_data T a), array (Storage_S_R_C.m_data T b))
       else (array (Storage_S_R_C.m_data T b), array (Storage_S_R_C.m_data T a))) /\
  (forall a b : Storage_S_D_D.ei_matrix_storage T,
     let ab := run2 (Storage_S_D_D.resize T) (Storage_S_D_D.swap T) ops (a, b) in
     (array (Storage_S_D_D.m_data T ab.1), array (Storage_S_D_D.m_data T ab.2))
     = if Nat.even (count_swaps ops)
       then (array (Storage_S_D_D.m_data T a), array (Storage_S_D_D.m_data T b))
       else (array (Storage_S_D_D.m_data T b), array (Storage_S_D_D.m_data T a))) /\
  (forall a b : Storage_S_D_C.ei_matrix_storage T,
     let ab := run2 (Storage_S_D_C.resize T) (Storage_S_D_C.swap T) ops (a, b) in
     (array (Storage_S_D_C.m_data T ab.1), array (Storage_S_D_C.m_data T ab.2))
     = if Nat.even (count_swaps ops)
       then (array (Storage_S_D_C.m_data T a), array (Storage_S_D_C.m_data T b))
       else (array (Storage_S_D_C.m_data T b), array (Storage_S_D_C.m_data T a))) /\
  (forall a b : Storage_S_R_D.ei_matrix_storage T,
     let ab := run2 (Storage_S_R_D.resize T) (Storage_S_R_D.swap T) ops (a, b) in
     (array (Storage_S_R_D.m_data T ab.1), array (Storage_S_R_D.m_data T ab.2))
     = if Nat.even (count_swaps ops)
       then (array (Storage_S_R_D.m_data T a), array (Storage_S_R_D.m_data T b))
       else (array (Storage_S_R_D.m_data T b), array (Storage_S_R_D.m_data T a))).
Proof.
  split; [|split; [|split]]; intros a b; cbn zeta.
  - apply (run2_elems _ _ (fun s => array (Storage_S_R_C.m_data T s))); [done|].
    intros x y. by destruct x as [[? ?]], y as [[? ?]].
  - apply (run2_elems _ _ (fun s => array (Storage_S_D_D.m_data T s))); [done|].
    intros x y. by destruct x as [[? ?]], y as [[? ?]].
  - apply (run2_elems _ _ (fun s => array (Storage_S_D_C.m_data T s))); [done|].
    intros x y. by destruct x as [[? ?]], y as [[? ?]].
  - apply (run2_elems _ _ (fun s => array (Storage_S_R_D.m_data T s))); [done|].
    intros x y. by destruct x as [[? ?]], y as [[? ?]].
Qed.
